(** * SQLQueryExecutionProcess: the pollable SQL task controller

    A shallow embedding of
    [webapp/packages/sql-editor/src/SqlResultTabs/SQLQueryExecutionProcess.ts].

    The class is an [async] coroutine ([start]) that an outside caller can
    disturb through [cancel()] while [start] is suspended on an [await].
    It is embedded the way an async function is executed: the synchronous
    code between two suspension points is one transition of a machine
    whose control state ([Pc]) names the [await] the coroutine is parked
    on, and whose inputs ([Event]) are what the outside world does next:
    a remote call settles, the timer settles, or somebody calls
    [cancel()].  Every call made on a collaborator (remote API, logging
    sink, timer factory) is appended to [calls], oldest first. *)

From Stdlib Require Import String List ZArith Lia Bool.
Import ListNotations.
Open Scope string_scope.
Open Scope list_scope.

(** ** Data coming from the SDK *)

(** [ServerError], [SqlExecuteInfo] and [AsyncTaskInfo] are GraphQL result
    types; only the fields that the sources read are kept. *)
Record ServerError := mkServerError {
  message : option string;
  stackTrace : option string
}.

Record SqlExecuteInfo := mkSqlExecuteInfo {
  statusMessage : option string;
  duration : Z
}.

Record AsyncTaskInfo := mkAsyncTaskInfo {
  id : string;
  running : bool;
  error : option ServerError;
  result : option SqlExecuteInfo;
  status : option string
}.

Record ISqlQueryParams := mkSqlQueryParams {
  connectionId : string;
  contextId : string;
  query : string
}.

(** Values that are thrown or handed to the logging sink. *)
Inductive JsError :=
| ServerInternalError (e : ServerError)   (* new ServerInternalError(taskInfo.error) *)
| Error (msg : string)                    (* new Error(msg) *)
| GQLError (errorText : string)           (* a failed remote call *)
| IllegalTransition (op : string).        (* fault of the Deferred base class *)

(** ** Deferred state *)

Inductive EDeferredState := PENDING | CANCELLING | RESOLVED | REJECTED | CANCELLED.

Definition EDeferredState_eqb (a b : EDeferredState) : bool :=
  match a, b with
  | PENDING, PENDING | CANCELLING, CANCELLING | RESOLVED, RESOLVED
  | REJECTED, REJECTED | CANCELLED, CANCELLED => true
  | _, _ => false
  end.

(** Modelled from the spec: the object returned by [cancellableTimeout]
    (package [@dbeaver/core/utils], not among the sources).  The delay is
    waiting, has elapsed, or was cancelled; cancelling an elapsed or
    cancelled delay has no effect. *)
Inductive CancellablePromise := Waiting | Elapsed | TimerCancelled.

(** Modelled from the spec: [CancellablePromise.cancel], which cuts a
    waiting delay short and does nothing to a settled one. *)
Definition timer_cancel (t : CancellablePromise) : CancellablePromise :=
  match t with
  | Waiting => TimerCancelled
  | Elapsed => Elapsed
  | TimerCancelled => TimerCancelled
  end.

(** ** Calls on collaborators *)

Inductive Call :=
| asyncSqlExecuteQuery (p : ISqlQueryParams) (offset limit : Z)
| asyncTaskStatus (taskId : option string)
| asyncTaskCancel (taskId : option string)
| logException (e : JsError) (msg : string)
| cancellableTimeout (ms : Z).

Definition DELAY_BETWEEN_TRIES : Z := 1000.

(** ** The object

    One JavaScript object carries the fields inherited from
    [Deferred<SqlExecuteInfo>] and the fields of the subclass.  [calls]
    is not a field of the object: it is the record of what the object
    did to its collaborators. *)
Record Process := mkProcess {
  state : EDeferredState;               (* Deferred *)
  payload : option SqlExecuteInfo;      (* Deferred: value of a resolved result *)
  rejectionReason : option JsError;     (* Deferred: error of a rejected result *)
  taskId : option string;
  timeout : option CancellablePromise;
  isCancelConfirmed : bool;
  calls : list Call
}.

Definition set_state (s : EDeferredState) (w : Process) : Process :=
  mkProcess s (payload w) (rejectionReason w) (taskId w) (timeout w)
            (isCancelConfirmed w) (calls w).
Definition set_payload (v : option SqlExecuteInfo) (w : Process) : Process :=
  mkProcess (state w) v (rejectionReason w) (taskId w) (timeout w)
            (isCancelConfirmed w) (calls w).
Definition set_rejectionReason (e : option JsError) (w : Process) : Process :=
  mkProcess (state w) (payload w) e (taskId w) (timeout w)
            (isCancelConfirmed w) (calls w).
Definition set_taskId (t : option string) (w : Process) : Process :=
  mkProcess (state w) (payload w) (rejectionReason w) t (timeout w)
            (isCancelConfirmed w) (calls w).
Definition set_timeout (t : option CancellablePromise) (w : Process) : Process :=
  mkProcess (state w) (payload w) (rejectionReason w) (taskId w) t
            (isCancelConfirmed w) (calls w).
Definition set_isCancelConfirmed (b : bool) (w : Process) : Process :=
  mkProcess (state w) (payload w) (rejectionReason w) (taskId w) (timeout w)
            b (calls w).
Definition emit (c : Call) (w : Process) : Process :=
  mkProcess (state w) (payload w) (rejectionReason w) (taskId w) (timeout w)
            (isCancelConfirmed w) (calls w ++ [c]).

(** The object right after [new SQLQueryExecutionProcess(...)]. *)
Definition new_process : Process :=
  mkProcess PENDING None None None None false [].

(** ** Synchronous code: state plus exceptions *)

Inductive Completion (A : Type) :=
| Return (a : A) (w : Process)
| Throw (e : JsError) (w : Process).
Arguments Return {A} a w.
Arguments Throw {A} e w.

Definition Sync (A : Type) := Process -> Completion A.

Definition ret {A} (a : A) : Sync A := fun w => Return a w.
Definition throw {A} (e : JsError) : Sync A := fun w => Throw e w.
Definition bind {A B} (m : Sync A) (k : A -> Sync B) : Sync B :=
  fun w => match m w with
           | Return a w' => k a w'
           | Throw e w' => Throw e w'
           end.
Definition try_catch {A} (m : Sync A) (h : JsError -> Sync A) : Sync A :=
  fun w => match m w with
           | Return a w' => Return a w'
           | Throw e w' => h e w'
           end.
Definition get {A} (f : Process -> A) : Sync A := fun w => Return (f w) w.
Definition modify (f : Process -> Process) : Sync unit := fun w => Return tt (f w).

Notation "x <- m ;; k" := (bind m (fun x => k))
  (at level 61, m at next level, right associativity).
Notation "m ;;; k" := (bind m (fun _ => k))
  (at level 61, right associativity).

(** The world a completion ends in, whether it returned or threw. *)
Definition world_of {A} (c : Completion A) : Process :=
  match c with Return _ w => w | Throw _ w => w end.

(** ** Deferred operations

    The base class [Deferred] lives in [@dbeaver/core/utils] and is not
    among the sources.  Section 4.1 of the specification gives its
    transitions, Pending -> Resolved | Rejected | Cancelling and
    Cancelling -> Cancelled | Rejected | Pending, and calls a transition
    asked for in any other state a programming-error fault; the fault is
    embedded as a thrown [IllegalTransition]. *)

(** Modelled from the spec: [Deferred.getState], the current state. *)
Definition getState : Sync EDeferredState := get state.

(** Modelled from the spec: [Deferred.isInProgress], state is Pending or
    Cancelling. *)
Definition in_progress (w : Process) : bool :=
  match state w with
  | PENDING | CANCELLING => true
  | _ => false
  end.

(** Modelled from the spec: [Deferred.isFinished], state is Resolved,
    Rejected or Cancelled. *)
Definition finished (w : Process) : bool :=
  match state w with
  | RESOLVED | REJECTED | CANCELLED => true
  | _ => false
  end.

Definition isInProgress : Sync bool := get in_progress.
Definition isFinished : Sync bool := get finished.

(** Modelled from the spec: [Deferred.toResolved], requires Pending or
    Cancelling, stores the value and moves to Resolved. *)
Definition toResolved (value : SqlExecuteInfo) : Sync unit :=
  fun w => if in_progress w
           then Return tt (set_payload (Some value) (set_state RESOLVED w))
           else Throw (IllegalTransition "toResolved") w.

(** Modelled from the spec: [Deferred.toRejected], requires Pending or
    Cancelling, stores the error and moves to Rejected. *)
Definition toRejected (reason : JsError) : Sync unit :=
  fun w => if in_progress w
           then Return tt (set_rejectionReason (Some reason) (set_state REJECTED w))
           else Throw (IllegalTransition "toRejected") w.

(** Modelled from the spec: [Deferred.toCancelling], the transition
    Pending -> Cancelling. *)
Definition toCancelling : Sync unit :=
  fun w => match state w with
           | PENDING => Return tt (set_state CANCELLING w)
           | _ => Throw (IllegalTransition "toCancelling") w
           end.

(** Modelled from the spec: [Deferred.toCancelled], the transition
    Cancelling -> Cancelled. *)
Definition toCancelled : Sync unit :=
  fun w => match state w with
           | CANCELLING => Return tt (set_state CANCELLED w)
           | _ => Throw (IllegalTransition "toCancelled") w
           end.

(** Modelled from the spec: [Deferred.toPending], the transition
    Cancelling -> Pending. *)
Definition toPending : Sync unit :=
  fun w => match state w with
           | CANCELLING => Return tt (set_state PENDING w)
           | _ => Throw (IllegalTransition "toPending") w
           end.

(** Modelled from the spec: [NotificationService.logException] accepts
    an error and a context message, and never affects control flow. *)
Definition notify (e : JsError) (msg : string) : Sync unit :=
  modify (emit (logException e msg)).

(** ** Synchronous methods of the controller *)

(** A JavaScript string used as a condition: absent and empty are false. *)
Definition truthy (s : option string) : bool :=
  match s with
  | Some s' => negb (String.eqb s' "")
  | None => false
  end.

(** The template literal of [onError]:
    [`Query execution has been canceled${status ? `: ${status}` : ''}`]. *)
Definition cancel_message (status : option string) : string :=
  ("Query execution has been canceled" ++
   (if truthy status
    then ": " ++ match status with Some s => s | None => "" end
    else ""))%string.

Arguments cancel_message : simpl never.

Definition onError (error : JsError) (status : option string) : Sync unit :=
  s <- getState ;;
  if EDeferredState_eqb s CANCELLING then
    toCancelled ;;;
    notify error (cancel_message status)
  else
    toRejected error.

Definition applyResult (taskInfo : AsyncTaskInfo) : Sync unit :=
  if running taskInfo then ret tt
  else match error taskInfo with
       | Some e => onError (ServerInternalError e) (status taskInfo)
       | None =>
         match result taskInfo with
         | None => onError (Error "Tasks execution returns no result") (status taskInfo)
         | Some r => toResolved r
         end
       end.

(** [cancel()] has no [await]: its whole body runs when it is called. *)
Definition cancel : Sync unit :=
  s <- getState ;;
  if negb (EDeferredState_eqb s PENDING) then ret tt
  else
    toCancelling ;;;
    t <- get timeout ;;
    match t with
    | Some p => modify (set_timeout (Some (timer_cancel p)))
    | None => ret tt
    end.

(** ** The coroutine [start]

    [start] (lines 32 to 74) and [cancelAsync] (lines 90 to 103) are cut
    at their [await]s.  Each piece below is the code that runs, without
    interruption, from one suspension to the next:
    - [start_call]: line 37, up to the await of the submission;
    - [start_submit_settled]: lines 37 to 56, from the answer to the
      submission;
    - [cancelAsync_call]: lines 91 to 95, up to the await of the
      remote cancel call;
    - [cancelAsync_resume]: lines 95 to 102, from its answer;
    - [start_cancelAsync_settled]: [start] continues after line 41 or
      after line 55;
    - [start_after_try]: lines 48 to 50, and [start_loop_head]: lines 53
      to 56;
    - [start_poll_status]: line 59, up to the await of the status call;
    - [start_status_settled]: lines 59 to 66, from its answer, and
      [start_delay]: lines 68 to 70, up to the await of the delay. *)

(** The two places [cancelAsync] is called from: line 41 (inside the
    [try] that follows the submission) and line 55 (top of the loop). *)
Inductive Site := PostSubmit | InLoop.

(** Where [start] is suspended. *)
Inductive Pc :=
| NotStarted
| AwaitExecuteQuery                  (* line 37 *)
| AwaitCancelQuery (k : Site)        (* line 95, inside cancelAsync *)
| AwaitCancelAsync (k : Site) (r : option JsError)
    (* line 41 or 55: cancelAsync has settled (fulfilled, or rejected
       with r), start has not resumed yet *)
| AwaitQueryStatus                   (* line 59 *)
| AwaitTimeout                       (* line 70 *)
| Settled (r : option JsError).      (* start returned, or threw r *)

Definition Config : Type := Pc * Process.

(** How a [try] block was left. *)
Inductive Exit :=
| Suspend (pc : Pc)      (* parked on an await inside the block *)
| Fallthrough            (* ran to the end of the try statement *)
| ReturnFromStart.       (* a return statement *)

Definition continue_after (rest : Sync Pc) (x : Exit) : Sync Pc :=
  match x with
  | Suspend pc => ret pc
  | Fallthrough => rest
  | ReturnFromStart => ret (Settled None)
  end.

(** [cancelAsync], up to its first suspension. *)
Definition cancelAsync_call (k : Site) : Sync Pc :=
  c <- get isCancelConfirmed ;;
  if c then ret (AwaitCancelAsync k None)
  else
    t <- get taskId ;;
    modify (emit (asyncTaskCancel t)) ;;;
    ret (AwaitCancelQuery k).

(** [cancelAsync], from the moment the remote cancel call settles. *)
Definition cancelAsync_resume (r : option JsError) : Sync unit :=
  match r with
  | None => modify (set_isCancelConfirmed true)
  | Some e =>
    s <- getState ;;
    if EDeferredState_eqb s CANCELLING then
      toPending ;;;
      notify e "Failed to cancel async task"
    else ret tt
  end.

(** Line 59: the status request is sent. *)
Definition start_poll_status : Sync Pc :=
  t <- get taskId ;;
  modify (emit (asyncTaskStatus t)) ;;;
  ret AwaitQueryStatus.

(** Line 53: the loop condition and the head of the body. *)
Definition start_loop_head : Sync Pc :=
  p <- isInProgress ;;
  if p then
    s <- getState ;;
    if EDeferredState_eqb s CANCELLING then cancelAsync_call InLoop
    else start_poll_status
  else ret (Settled None).

(** Line 48. *)
Definition start_after_try : Sync Pc :=
  f <- isFinished ;;
  if f then ret (Settled None) else start_loop_head.

(** Lines 68 to 70. *)
Definition start_delay : Sync Pc :=
  modify (emit (cancellableTimeout DELAY_BETWEEN_TRIES)) ;;;
  modify (set_timeout (Some Waiting)) ;;;
  ret AwaitTimeout.

(** Line 37: [start] is called and sends the submission. *)
Definition start_call (p : ISqlQueryParams) (rowOffset count : Z) : Sync Pc :=
  modify (emit (asyncSqlExecuteQuery p rowOffset count)) ;;;
  ret AwaitExecuteQuery.

(** Lines 37 to 50 once the submission has settled. *)
Definition start_submit_settled (r : JsError + AsyncTaskInfo) : Sync Pc :=
  x <- try_catch
         (match r with
          | inl e => throw e
          | inr taskInfo =>
            applyResult taskInfo ;;;
            modify (set_taskId (Some (id taskInfo))) ;;;
            s <- getState ;;
            if EDeferredState_eqb s CANCELLING then
              pc <- cancelAsync_call PostSubmit ;; ret (Suspend pc)
            else ret Fallthrough
          end)
         (fun e => onError e None ;;; ret ReturnFromStart) ;;
  continue_after start_after_try x.

(** [start] resumes after [await this.cancelAsync(...)]. *)
Definition start_cancelAsync_settled (k : Site) (r : option JsError) : Sync Pc :=
  match k with
  | PostSubmit =>
    x <- try_catch
           (match r with
            | Some e => throw e
            | None => ret Fallthrough
            end)
           (fun e => onError e None ;;; ret ReturnFromStart) ;;
    continue_after start_after_try x
  | InLoop =>
    match r with
    | Some e => throw e
    | None => start_poll_status
    end
  end.

(** Lines 58 to 70 once the status request has settled. *)
Definition start_status_settled (r : JsError + AsyncTaskInfo) : Sync Pc :=
  x <- try_catch
         (match r with
          | inl e => throw e
          | inr taskInfo =>
            applyResult taskInfo ;;;
            f <- isFinished ;;
            if f then ret ReturnFromStart else ret Fallthrough
          end)
         (fun e => notify e "Failed to check async task status" ;;;
                   ret Fallthrough) ;;
  continue_after start_delay x.

(** ** The machine *)

Inductive Event :=
| StartCalled (p : ISqlQueryParams) (rowOffset count : Z)
| CancelCalled                       (* somebody calls cancel() *)
| SubmitFulfilled (taskInfo : AsyncTaskInfo)
| SubmitRejected (e : JsError)
| CancelFulfilled
| CancelRejected (e : JsError)
| Resumed                            (* start resumes after cancelAsync *)
| StatusFulfilled (taskInfo : AsyncTaskInfo)
| StatusRejected (e : JsError)
| TimeoutSettled.                    (* the delay elapsed, or its
                                        cancellation rejected the await *)

(** Runs [start] up to its next suspension; an exception that escapes
    rejects the promise of [start]. *)
Definition resume (m : Sync Pc) (w : Process) : Config :=
  match m w with
  | Return pc w' => (pc, w')
  | Throw e w' => (Settled (Some e), w')
  end.

(** One input of the outside world.  [None]: the input cannot happen
    where the coroutine is parked.  A second call of [start] on the same
    object is left out, as the specification does. *)
Definition step (ev : Event) (c : Config) : option Config :=
  let '(pc, w) := c in
  match ev, pc with
  | CancelCalled, _ => Some (pc, world_of (cancel w))
  | StartCalled p o n, NotStarted => Some (resume (start_call p o n) w)
  | SubmitFulfilled ti, AwaitExecuteQuery => Some (resume (start_submit_settled (inr ti)) w)
  | SubmitRejected e, AwaitExecuteQuery => Some (resume (start_submit_settled (inl e)) w)
  | CancelFulfilled, AwaitCancelQuery k =>
    match cancelAsync_resume None w with
    | Return _ w' => Some (AwaitCancelAsync k None, w')
    | Throw e w' => Some (AwaitCancelAsync k (Some e), w')
    end
  | CancelRejected e, AwaitCancelQuery k =>
    match cancelAsync_resume (Some e) w with
    | Return _ w' => Some (AwaitCancelAsync k None, w')
    | Throw e' w' => Some (AwaitCancelAsync k (Some e'), w')
    end
  | Resumed, AwaitCancelAsync k r => Some (resume (start_cancelAsync_settled k r) w)
  | StatusFulfilled ti, AwaitQueryStatus => Some (resume (start_status_settled (inr ti)) w)
  | StatusRejected e, AwaitQueryStatus => Some (resume (start_status_settled (inl e)) w)
  | TimeoutSettled, AwaitTimeout =>
    match timeout w with
    | Some Waiting => Some (resume start_loop_head (set_timeout (Some Elapsed) w))
    | Some TimerCancelled => Some (resume start_loop_head w)
    | _ => None
    end
  | _, _ => None
  end.

Fixpoint run (evs : list Event) (c : Config) : option Config :=
  match evs with
  | [] => Some c
  | ev :: rest =>
    match step ev c with
    | Some c' => run rest c'
    | None => None
    end
  end.

Definition initial : Config := (NotStarted, new_process).

(** Counting calls of one kind in the record of calls. *)
Definition is_cancel_call (c : Call) : bool :=
  match c with asyncTaskCancel _ => true | _ => false end.
Definition is_status_call (c : Call) : bool :=
  match c with asyncTaskStatus _ => true | _ => false end.
Definition count_calls (f : Call -> bool) (l : list Call) : nat :=
  length (filter f l).

(** ** Invariants, measures and sample executions *)

(** What holds of the object at each suspension point of [start]. *)
Definition pc_inv (pc : Pc) (w : Process) : Prop :=
  match pc with
  | NotStarted => in_progress w = true /\ isCancelConfirmed w = false
  | AwaitExecuteQuery => in_progress w = true /\ isCancelConfirmed w = false
  | AwaitCancelQuery _ => state w = CANCELLING /\ isCancelConfirmed w = false
  | AwaitCancelAsync _ r => r = None /\ in_progress w = true
  | AwaitQueryStatus => in_progress w = true
  | AwaitTimeout =>
    in_progress w = true /\
    (timeout w = Some Waiting \/ timeout w = Some TimerCancelled)
  | Settled r => r = None /\ finished w = true
  end.

(** The outcome stored in the object agrees with its state. *)
Definition outcome_inv (w : Process) : Prop :=
  match state w with
  | RESOLVED => exists v, payload w = Some v
  | REJECTED => exists e, rejectionReason w = Some e
  | CANCELLED =>
    exists e st, In (logException e (cancel_message st)) (calls w)
  | PENDING | CANCELLING => payload w = None /\ rejectionReason w = None
  end.

Definition wf (c : Config) : Prop :=
  pc_inv (fst c) (snd c) /\
  outcome_inv (snd c) /\
  (isCancelConfirmed (snd c) = true -> state (snd c) <> PENDING).

(** Unfolds the controller down to matches on the fields of the object. *)
Ltac unfold_ctrl :=
  cbv [step resume world_of
       start_call start_submit_settled start_cancelAsync_settled
       start_after_try start_loop_head start_poll_status
       start_status_settled start_delay cancelAsync_call cancelAsync_resume
       continue_after cancel applyResult onError notify
       toPending toCancelled toCancelling toRejected toResolved
       isFinished isInProgress getState get modify bind ret throw try_catch
       in_progress finished EDeferredState_eqb negb
       set_state set_payload set_rejectionReason set_taskId set_timeout
       set_isCancelConfirmed emit
       state payload rejectionReason taskId timeout isCancelConfirmed calls
       fst snd timer_cancel] in *.

(** The same in the goal only, with the fields of a response. *)
Ltac exec :=
  cbv [step resume world_of
       start_call start_submit_settled start_cancelAsync_settled
       start_after_try start_loop_head start_poll_status
       start_status_settled start_delay cancelAsync_call cancelAsync_resume
       continue_after cancel applyResult onError notify
       toPending toCancelled toCancelling toRejected toResolved
       isFinished isInProgress getState get modify bind ret throw try_catch
       in_progress finished EDeferredState_eqb negb
       set_state set_payload set_rejectionReason set_taskId set_timeout
       set_isCancelConfirmed emit
       state payload rejectionReason taskId timeout isCancelConfirmed calls
       id running error result status
       fst snd timer_cancel].

Ltac destruct_taskInfo ti :=
  let i := fresh "tid" in
  let r := fresh "run" in
  let e := fresh "err" in
  let v := fresh "res" in
  let s := fresh "st" in
  destruct ti as [i r e v s]; cbv [id running error result status] in *;
  destruct r; destruct e; destruct v.

(** The faults that reach [onError]: where [start] is parked, the event
    that carries the fault, the error and the status message handed over. *)
Inductive routed_fault : Pc -> Event -> JsError -> option string -> Prop :=
| submit_threw e :
    routed_fault AwaitExecuteQuery (SubmitRejected e) e None
| submit_reported ti se :
    running ti = false -> error ti = Some se ->
    routed_fault AwaitExecuteQuery (SubmitFulfilled ti)
                 (ServerInternalError se) (status ti)
| submit_no_result ti :
    running ti = false -> error ti = None -> result ti = None ->
    routed_fault AwaitExecuteQuery (SubmitFulfilled ti)
                 (Error "Tasks execution returns no result") (status ti)
| status_reported ti se :
    running ti = false -> error ti = Some se ->
    routed_fault AwaitQueryStatus (StatusFulfilled ti)
                 (ServerInternalError se) (status ti)
| status_no_result ti :
    running ti = false -> error ti = None -> result ti = None ->
    routed_fault AwaitQueryStatus (StatusFulfilled ti)
                 (Error "Tasks execution returns no result") (status ti).

(** The events of [tis] status checks that all report a running task,
    each followed by a delay that runs to its end. *)
Definition polls (tis : list AsyncTaskInfo) : list Event :=
  flat_map (fun ti => [StatusFulfilled ti; TimeoutSettled]) tis.

(** What each of them adds to the record of calls: the delay, then the
    next status call. *)
Definition poll_calls (t : option string) (tis : list AsyncTaskInfo) : list Call :=
  flat_map (fun _ => [cancellableTimeout DELAY_BETWEEN_TRIES; asyncTaskStatus t]) tis.

(** Status answers, and whether [start] waits for one. *)
Definition is_status_answer (ev : Event) : bool :=
  match ev with StatusFulfilled _ | StatusRejected _ => true | _ => false end.
Definition awaiting_status (pc : Pc) : nat :=
  match pc with AwaitQueryStatus => 1 | _ => 0 end.
Definition status_calls (w : Process) : nat :=
  count_calls is_status_call (calls w).

(** Reads a record of calls from the oldest on; [since] tells whether a
    status call was made after the last delay of [DELAY_BETWEEN_TRIES].
    [None]: two status calls with no such delay in between. *)
Fixpoint scan_delays (since : bool) (l : list Call) : option bool :=
  match l with
  | [] => Some since
  | asyncTaskStatus _ :: l' => if since then None else scan_delays true l'
  | cancellableTimeout ms :: l' =>
    scan_delays (if Z.eqb ms DELAY_BETWEEN_TRIES then false else since) l'
  | _ :: l' => scan_delays since l'
  end.

(** Any two consecutive status calls have a delay between them. *)
Definition delays_between (l : list Call) : bool :=
  match scan_delays false l with Some _ => true | None => false end.

(** The record of calls never shows two status calls without a delay in
    between; a status call not yet followed by a delay is the one
    [start] waits for, or the one whose answer ended [start]. *)
Definition delay_inv (c : Config) : Prop :=
  exists since,
    scan_delays false (calls (snd c)) = Some since /\
    (since = true ->
     fst c = AwaitQueryStatus \/ exists r, fst c = Settled r).

Definition is_cancel_rejected (ev : Event) : bool :=
  match ev with CancelRejected _ => true | _ => false end.
Definition is_cancel_fulfilled (ev : Event) : bool :=
  match ev with CancelFulfilled => true | _ => false end.

(** A remote cancel call is in flight exactly while [start] is parked
    inside [cancelAsync]. *)
Definition in_flight (pc : Pc) : nat :=
  match pc with AwaitCancelQuery _ => 1 | _ => 0 end.

Definition cancel_calls (w : Process) : nat :=
  count_calls is_cancel_call (calls w).

(** Sample data for concrete executions. *)
Definition sample_params : ISqlQueryParams :=
  mkSqlQueryParams "conn" "ctx" "select 1".
Definition sample_running : AsyncTaskInfo :=
  mkAsyncTaskInfo "task-1" true None None None.
Definition sample_result : SqlExecuteInfo := mkSqlExecuteInfo (Some "ok") 12.
Definition sample_done : AsyncTaskInfo :=
  mkAsyncTaskInfo "task-1" false None (Some sample_result) None.
Definition sample_error : ServerError := mkServerError (Some "stopped") None.
Definition sample_stopped : AsyncTaskInfo :=
  mkAsyncTaskInfo "task-1" false (Some sample_error) None (Some "stopped by user").
Definition sample_empty : AsyncTaskInfo :=
  mkAsyncTaskInfo "task-1" false None None None.

(** The execution in which a failed cancel request is followed by a
    second [cancel()] of the user. *)
Definition retry_events : list Event :=
  [StartCalled sample_params 0 200; CancelCalled;
   SubmitFulfilled sample_running; CancelRejected (GQLError "network");
   Resumed; CancelCalled; StatusFulfilled sample_running; TimeoutSettled].
Definition retry_world : Process :=
  mkProcess CANCELLING None None (Some "task-1") (Some Elapsed) false
    [asyncSqlExecuteQuery sample_params 0 200;
     asyncTaskCancel (Some "task-1");
     logException (GQLError "network") "Failed to cancel async task";
     asyncTaskStatus (Some "task-1");
     cancellableTimeout DELAY_BETWEEN_TRIES;
     asyncTaskCancel (Some "task-1")].

(** The execution in which the user cancels during the first status
    check and the remote confirms the cancel request. *)
Definition confirm_events : list Event :=
  [StartCalled sample_params 0 200; SubmitFulfilled sample_running;
   CancelCalled; StatusFulfilled sample_running; TimeoutSettled;
   CancelFulfilled; Resumed].
Definition confirm_world : Process :=
  mkProcess CANCELLING None None (Some "task-1") (Some Elapsed) true
    [asyncSqlExecuteQuery sample_params 0 200;
     asyncTaskStatus (Some "task-1");
     cancellableTimeout DELAY_BETWEEN_TRIES;
     asyncTaskCancel (Some "task-1");
     asyncTaskStatus (Some "task-1")].

(** The same execution, ended by a status response that reports the
    task as stopped. *)
Definition cancelled_events : list Event :=
  confirm_events ++ [StatusFulfilled sample_stopped].
Definition cancelled_world : Process :=
  mkProcess CANCELLED None None (Some "task-1") (Some Elapsed) true
    [asyncSqlExecuteQuery sample_params 0 200;
     asyncTaskStatus (Some "task-1");
     cancellableTimeout DELAY_BETWEEN_TRIES;
     asyncTaskCancel (Some "task-1");
     asyncTaskStatus (Some "task-1");
     logException (ServerInternalError sample_error)
       "Query execution has been canceled: stopped by user"].

(** The user has cancelled during a status check; the remote cancel call
    has not been sent yet. *)
Definition cancelling_world : Process :=
  mkProcess CANCELLING None None (Some "task-1") None false
    [asyncSqlExecuteQuery sample_params 0 200;
     asyncTaskStatus (Some "task-1")].

(** ** Measures and invariants for further properties *)

Definition is_submit_call (c : Call) : bool :=
  match c with asyncSqlExecuteQuery _ _ _ => true | _ => false end.
Definition is_log_call (c : Call) : bool :=
  match c with logException _ _ => true | _ => false end.

(** The submissions that the calls of [start] in a list of events ask for:
    [executeQueryAsync] (lines 105 to 119) passes the parameters on, with
    [rowOffset] as the offset and [count] as the limit of the filter. *)
Definition submissions (evs : list Event) : list Call :=
  flat_map (fun ev => match ev with
                      | StartCalled p o n => [asyncSqlExecuteQuery p o n]
                      | _ => []
                      end) evs.

(** The task identifier a remote call is made for, for the two calls
    that take one. *)
Definition call_task (c : Call) : option (option string) :=
  match c with
  | asyncTaskStatus t | asyncTaskCancel t => Some t
  | _ => None
  end.

(** [start] has gone past the submission and has not ended. *)
Definition past_submission (pc : Pc) : bool :=
  match pc with
  | AwaitCancelQuery _ | AwaitCancelAsync _ _ | AwaitQueryStatus
  | AwaitTimeout => true
  | _ => false
  end.
Definition before_answer (pc : Pc) : bool :=
  match pc with NotStarted | AwaitExecuteQuery => true | _ => false end.

(** The task identifier is known wherever [start] uses it, every
    remote status or cancel call made so far carries it, and none was
    made before the submission was answered. *)
Definition task_inv (c : Config) : Prop :=
  (past_submission (fst c) = true -> taskId (snd c) <> None) /\
  (before_answer (fst c) = true ->
   forall k, In k (calls (snd c)) -> call_task k = None) /\
  (forall k t, In k (calls (snd c)) -> call_task k = Some t ->
     t = taskId (snd c) /\ t <> None).

Definition is_cancel_invocation (ev : Event) : bool :=
  match ev with CancelCalled => true | _ => false end.
Definition is_status_rejected (ev : Event) : bool :=
  match ev with StatusRejected _ => true | _ => false end.

(** A [cancel()] has taken effect and its remote cancel call has not
    been sent yet. *)
Definition unsent_cancel (pc : Pc) (w : Process) : nat :=
  match pc, state w, isCancelConfirmed w with
  | AwaitCancelQuery _, _, _ => 0
  | _, CANCELLING, false => 1
  | _, _, _ => 0
  end.

Definition log_calls (w : Process) : nat := count_calls is_log_call (calls w).
Definition cancelled (w : Process) : nat :=
  match state w with CANCELLED => 1 | _ => 0 end.

(** Where the outcome stored in the object comes from: the answer, among
    the events, that set it. *)
Definition finishing_answer (ev : Event) : option AsyncTaskInfo :=
  match ev with
  | SubmitFulfilled ti | StatusFulfilled ti =>
    if running ti then None else Some ti
  | _ => None
  end.

Definition provenance (evs : list Event) (w : Process) : Prop :=
  match state w with
  | RESOLVED =>
    exists ev ti r, In ev evs /\ finishing_answer ev = Some ti /\
                    error ti = None /\ result ti = Some r /\
                    payload w = Some r
  | REJECTED =>
    (exists e, In (SubmitRejected e) evs /\ rejectionReason w = Some e) \/
    (exists ev ti, In ev evs /\ finishing_answer ev = Some ti /\
       match error ti, result ti with
       | Some se, _ => rejectionReason w = Some (ServerInternalError se)
       | None, None =>
         rejectionReason w = Some (Error "Tasks execution returns no result")
       | None, Some _ => False
       end)
  | _ => True
  end.

(** An execution parked on the first status check, and the same one
    step later, asleep between two checks. *)
Definition polling_events : list Event :=
  [StartCalled sample_params 0 200; SubmitFulfilled sample_running].
Definition polling_world : Process :=
  mkProcess PENDING None None (Some "task-1") None false
    [asyncSqlExecuteQuery sample_params 0 200;
     asyncTaskStatus (Some "task-1")].
Definition sleeping_events : list Event :=
  polling_events ++ [StatusFulfilled sample_running].
Definition sleeping_world : Process :=
  mkProcess PENDING None None (Some "task-1") (Some Waiting) false
    [asyncSqlExecuteQuery sample_params 0 200;
     asyncTaskStatus (Some "task-1");
     cancellableTimeout DELAY_BETWEEN_TRIES].

(** An execution that resolves on the answer to the submission. *)
Definition resolved_events : list Event :=
  [StartCalled sample_params 0 200; SubmitFulfilled sample_done].
Definition resolved_world : Process :=
  mkProcess RESOLVED (Some sample_result) None (Some "task-1") None false
    [asyncSqlExecuteQuery sample_params 0 200].

(** Calls on the remote API, their answers, and whether [start] waits
    for one. *)
Definition is_remote_call (c : Call) : bool :=
  match c with
  | asyncSqlExecuteQuery _ _ _ | asyncTaskStatus _ | asyncTaskCancel _ => true
  | _ => false
  end.
Definition is_answer (ev : Event) : bool :=
  match ev with
  | SubmitFulfilled _ | SubmitRejected _ | CancelFulfilled | CancelRejected _
  | StatusFulfilled _ | StatusRejected _ => true
  | _ => false
  end.
Definition awaiting_remote (pc : Pc) : nat :=
  match pc with
  | AwaitExecuteQuery | AwaitCancelQuery _ | AwaitQueryStatus => 1
  | _ => 0
  end.
Definition remote_calls (w : Process) : nat :=
  count_calls is_remote_call (calls w).

(** The error that [applyResult] hands to [onError] for an answer that
    reports a finished task without a usable result. *)
Definition fault_of (ti : AsyncTaskInfo) : JsError :=
  match error ti with
  | Some se => ServerInternalError se
  | None => Error "Tasks execution returns no result"
  end.

(** The changes of state that the controller makes: a pending result is
    marked as cancelling, resolved or rejected; a cancelling one goes
    back to pending, or is resolved or cancelled. *)
Definition controller_transition (a b : EDeferredState) : bool :=
  match a, b with
  | PENDING, CANCELLING | PENDING, RESOLVED | PENDING, REJECTED => true
  | CANCELLING, PENDING | CANCELLING, RESOLVED | CANCELLING, CANCELLED => true
  | _, _ => false
  end.

(** * Proofs *)

(** ** Executions preserve the invariant *)

Lemma step_wf (ev : Event) (c c' : Config) :
  wf c -> step ev c = Some c' -> wf c'.
Proof.
  destruct c as [pc [s pl rr t tm cf cs]].
  unfold wf, pc_inv, outcome_inv.
  intros (Hpc & Hout & Hconf) Hstep.
  destruct ev as [p o n| |ti|e| |e| |ti|e| ]; destruct pc as [ | |k|k r| | |r];
    try discriminate Hstep;
    try destruct_taskInfo ti;
    destruct s; destruct cf; try destruct tm as [[ | | ]|];
    try destruct k; try destruct r;
    unfold_ctrl; cbn in *;
    try discriminate Hstep;
    try (injection Hstep as <-; cbn);
    repeat match goal with
           | H : _ /\ _ |- _ => destruct H
           | H : _ \/ _ |- _ => destruct H
           | H : exists _, _ |- _ => destruct H
           end;
    try discriminate; try congruence.
  all: repeat split; try congruence; eauto 6 using in_or_app, in_eq, in_cons.
Qed.

Lemma initial_wf : wf initial.
Proof. unfold wf, initial; cbn; repeat split; congruence. Qed.

Lemma run_wf (evs : list Event) : forall c c',
  wf c -> run evs c = Some c' -> wf c'.
Proof.
  induction evs as [|ev evs IH]; cbn; intros c c' Hwf Hrun.
  - now inversion Hrun; subst.
  - destruct (step ev c) as [c1|] eqn:Hstep; [|discriminate].
    eapply IH; [eapply step_wf|]; eassumption.
Qed.

Lemma reachable_wf (evs : list Event) (c : Config) :
  run evs initial = Some c -> wf c.
Proof. apply run_wf, initial_wf. Qed.

Lemma run_app (evs1 evs2 : list Event) : forall c,
  run (evs1 ++ evs2) c =
  match run evs1 c with
  | Some c1 => run evs2 c1
  | None => None
  end.
Proof.
  induction evs1 as [|ev evs1 IH]; cbn; intros c; [reflexivity|].
  destruct (step ev c); [apply IH|reflexivity].
Qed.

(** A state is never two things at once; used to read "not cancelling"
    on an unfinished result as "pending". *)
Lemma in_progress_cases (w : Process) :
  in_progress w = true -> state w = PENDING \/ state w = CANCELLING.
Proof. unfold in_progress; destruct (state w); auto; discriminate. Qed.

Lemma finished_cases (w : Process) :
  finished w = true ->
  state w = RESOLVED \/ state w = REJECTED \/ state w = CANCELLED.
Proof. unfold finished; destruct (state w); auto; discriminate. Qed.

Lemma count_calls_app (f : Call -> bool) (l1 l2 : list Call) :
  count_calls f (l1 ++ l2) = (count_calls f l1 + count_calls f l2)%nat.
Proof. unfold count_calls. now rewrite filter_app, length_app. Qed.

(** [cancel()] on a result that is not PENDING is a step that changes
    nothing, however often it is repeated. *)
Lemma repeated_cancel_noop (k : nat) (pc : Pc) (w : Process) :
  state w <> PENDING ->
  run (repeat CancelCalled k) (pc, w) = Some (pc, w).
Proof.
  intros Hs. induction k as [|k IH]; [reflexivity|].
  cbn [repeat run step].
  replace (cancel w) with (@Return unit tt w); [exact IH|].
  destruct w as [s pl rr t tm cf cs]; cbn in Hs; destruct s;
    try reflexivity; congruence.
Qed.

(** Once [start] has ended on a finished result nothing happens any more. *)
Lemma settled_is_final (evs : list Event) (r : option JsError) (w : Process) :
  finished w = true ->
  forall c', run evs (Settled r, w) = Some c' -> c' = (Settled r, w).
Proof.
  intros Hf. induction evs as [|ev evs IH]; intros c' Hrun.
  - cbn in Hrun. congruence.
  - cbn [run] in Hrun.
    destruct ev; try discriminate Hrun.
    cbn [step] in Hrun.
    replace (cancel w) with (@Return unit tt w) in Hrun; [exact (IH _ Hrun)|].
    destruct w as [s pl rr t tm cf cs]; cbn in Hf; destruct s;
      try reflexivity; discriminate.
Qed.

(** ** Status application *)

(** C1.  [applyResult] follows the four cases, read in the order the
    code tests them: a running task changes nothing; a finished task
    with an error goes to [onError] with that error (wrapped as a
    [ServerInternalError]) and the status message; a finished task with
    neither error nor result goes to [onError] with the "no result"
    error and the status message; a finished task with a result and no
    error resolves the result, which on an unfinished result stores the
    value and sets the state to RESOLVED, touching nothing else.  In an
    execution the result is unfinished wherever [applyResult] is called,
    that is, when the submission or a status call is answered. *)
Theorem applyResult_four_cases (taskInfo : AsyncTaskInfo) (w : Process) :
  (running taskInfo = true -> applyResult taskInfo w = Return tt w) /\
  (forall e, running taskInfo = false -> error taskInfo = Some e ->
     applyResult taskInfo w =
     onError (ServerInternalError e) (status taskInfo) w) /\
  (running taskInfo = false -> error taskInfo = None ->
   result taskInfo = None ->
     applyResult taskInfo w =
     onError (Error "Tasks execution returns no result") (status taskInfo) w) /\
  (forall r, running taskInfo = false -> error taskInfo = None ->
   result taskInfo = Some r ->
     applyResult taskInfo w = toResolved r w /\
     (in_progress w = true ->
      applyResult taskInfo w =
      Return tt (mkProcess RESOLVED (Some r) (rejectionReason w) (taskId w)
                           (timeout w) (isCancelConfirmed w) (calls w)))) /\
  (forall evs pc, run evs initial = Some (pc, w) ->
     pc = AwaitExecuteQuery \/ pc = AwaitQueryStatus ->
     in_progress w = true).
Proof.
  unfold applyResult.
  split; [intros ->; reflexivity|].
  split; [intros e -> ->; reflexivity|].
  split; [intros -> -> ->; reflexivity|].
  split.
  - intros r -> -> ->. split; [reflexivity|].
    intros Hp. unfold toResolved. now rewrite Hp.
  - intros evs pc Hrun Hpc.
    apply reachable_wf in Hrun. destruct Hrun as (Hinv & _).
    cbn [fst snd] in Hinv. destruct Hpc; subst pc; cbn in Hinv; tauto.
Qed.

Lemma applyResult_four_cases_witness :
  applyResult sample_running new_process = Return tt new_process /\
  applyResult sample_stopped new_process =
    onError (ServerInternalError sample_error) (Some "stopped by user")
            new_process /\
  applyResult sample_empty new_process =
    onError (Error "Tasks execution returns no result") None new_process /\
  applyResult sample_done new_process =
    Return tt (mkProcess RESOLVED (Some sample_result) None None None false []).
Proof.
  split.
  - exact (proj1 (applyResult_four_cases sample_running new_process) eq_refl).
  - split.
    + exact (proj1 (proj2 (applyResult_four_cases sample_stopped new_process))
                   sample_error eq_refl eq_refl).
    + split.
      * exact (proj1 (proj2 (proj2
                 (applyResult_four_cases sample_empty new_process)))
                 eq_refl eq_refl eq_refl).
      * exact (proj2 (proj1 (proj2 (proj2 (proj2
                 (applyResult_four_cases sample_done new_process))))
                 sample_result eq_refl eq_refl eq_refl) eq_refl).
Defined.

(** ** Unified error routing *)

(** What [onError] does, by state. *)
Lemma onError_cancelling (e : JsError) (st : option string) (w : Process) :
  state w = CANCELLING ->
  onError e st w =
  Return tt (emit (logException e (cancel_message st)) (set_state CANCELLED w)).
Proof.
  intros H. unfold onError, bind, getState, get, toCancelled, notify, modify.
  rewrite H. cbn. now rewrite H.
Qed.

Lemma onError_pending (e : JsError) (st : option string) (w : Process) :
  state w = PENDING ->
  onError e st w =
  Return tt (set_rejectionReason (Some e) (set_state REJECTED w)).
Proof.
  intros H. unfold onError, bind, getState, get, toRejected, in_progress.
  rewrite H. cbn. now rewrite H.
Qed.

Lemma routed_fault_step (pc : Pc) (ev : Event) (e : JsError)
      (st : option string) (w : Process) :
  routed_fault pc ev e st -> in_progress w = true ->
  exists w',
    step ev (pc, w) = Some (Settled None, w') /\
    isCancelConfirmed w' = isCancelConfirmed w /\
    (state w = CANCELLING ->
       state w' = CANCELLED /\ rejectionReason w' = rejectionReason w /\
       payload w' = payload w /\
       calls w' = calls w ++ [logException e (cancel_message st)]) /\
    (state w <> CANCELLING ->
       state w' = REJECTED /\ rejectionReason w' = Some e /\
       payload w' = payload w /\ calls w' = calls w).
Proof.
  intros Hf Hp.
  destruct w as [s pl rr t tm cf cs].
  destruct Hf as [e|ti se Hr He|ti Hr He Hv|ti se Hr He|ti Hr He Hv];
    try (destruct ti as [i r er v stt]; cbv [running error result status] in *;
         subst);
    destruct s; try discriminate Hp;
    unfold_ctrl; cbn; eexists; (split; [reflexivity|]); cbn;
    repeat split; intros; congruence.
Qed.

(** C2.  In every execution, a fault that reaches the unified error
    path (the submission threw, or a submit or status response reports
    a finished task with an error or without a result) ends [start];
    if the result is CANCELLING at that moment it becomes CANCELLED,
    no rejection reason is stored and the error is handed to
    [logException] with the cancellation message; otherwise it becomes
    REJECTED with that error and nothing is logged.  In particular,
    once the remote cancel call has succeeded ([isCancelConfirmed]),
    such a response always ends in CANCELLED. *)
Theorem fault_routing (evs : list Event) (pc : Pc) (w : Process)
        (ev : Event) (e : JsError) (st : option string) :
  run evs initial = Some (pc, w) ->
  routed_fault pc ev e st ->
  exists w',
    step ev (pc, w) = Some (Settled None, w') /\
    (state w = CANCELLING ->
       state w' = CANCELLED /\ rejectionReason w' = None /\
       calls w' = calls w ++ [logException e (cancel_message st)]) /\
    (state w <> CANCELLING ->
       state w' = REJECTED /\ rejectionReason w' = Some e /\
       calls w' = calls w) /\
    (isCancelConfirmed w = true ->
       state w' = CANCELLED /\ state w' <> REJECTED).
Proof.
  intros Hrun Hf.
  apply reachable_wf in Hrun. destruct Hrun as (Hpc & Hout & Hconf).
  cbn [fst snd] in *.
  assert (Hp : in_progress w = true).
  { destruct Hf; cbn in Hpc; tauto. }
  destruct (routed_fault_step pc ev e st w Hf Hp)
    as (w' & Hstep & _ & Hc & Hr).
  exists w'. split; [exact Hstep|].
  destruct (in_progress_cases w Hp) as [Hs|Hs].
  - split; [intros; congruence|].
    split; [intros _; destruct Hr as (H1 & H2 & _ & H4); intuition congruence|].
    intros Hcf. specialize (Hconf Hcf). congruence.
  - destruct (Hc Hs) as (H1 & H2 & _ & H4).
    unfold outcome_inv in Hout. rewrite Hs in Hout.
    split; [intros _; intuition congruence|].
    split; [intros; congruence|].
    intros _. split; congruence.
Qed.

Lemma fault_routing_witness :
  run confirm_events initial = Some (AwaitQueryStatus, confirm_world) /\
  routed_fault AwaitQueryStatus (StatusFulfilled sample_stopped)
               (ServerInternalError sample_error) (Some "stopped by user") /\
  exists w',
    step (StatusFulfilled sample_stopped) (AwaitQueryStatus, confirm_world) =
      Some (Settled None, w') /\
    state w' = CANCELLED /\
    calls w' = calls confirm_world ++
               [logException (ServerInternalError sample_error)
                  (cancel_message (Some "stopped by user"))].
Proof.
  split; [reflexivity|].
  split; [exact (status_reported sample_stopped sample_error eq_refl eq_refl)|].
  destruct (fault_routing confirm_events AwaitQueryStatus confirm_world
              (StatusFulfilled sample_stopped)
              (ServerInternalError sample_error) (Some "stopped by user")
              eq_refl
              (status_reported sample_stopped sample_error eq_refl eq_refl))
    as (w' & Hstep & Hc & _ & _).
  exists w'. split; [exact Hstep|].
  destruct (Hc eq_refl) as (H1 & _ & H3). split; [exact H1|exact H3].
Defined.

(** ** The serialized cancel step *)

(** C3.  [cancelAsync] does nothing when [isCancelConfirmed] is set;
    otherwise it sends the remote cancel call.  When that call succeeds
    the flag is set and nothing else changes, so a CANCELLING result
    stays CANCELLING.  When it fails on a CANCELLING result, the result
    goes back to PENDING, the flag stays as it was and the error is
    logged; polling then resumes, and a status response that reports a
    finished task resolves the result (result present, no error) or
    rejects it (error present), as on a result never cancelled. *)
Theorem cancelAsync_cases (k : Site) (w : Process) :
  (isCancelConfirmed w = true ->
     cancelAsync_call k w = Return (AwaitCancelAsync k None) w) /\
  (isCancelConfirmed w = false ->
     cancelAsync_call k w =
     Return (AwaitCancelQuery k) (emit (asyncTaskCancel (taskId w)) w)) /\
  (step CancelFulfilled (AwaitCancelQuery k, w) =
     Some (AwaitCancelAsync k None, set_isCancelConfirmed true w)) /\
  (forall e, state w = CANCELLING ->
     step (CancelRejected e) (AwaitCancelQuery k, w) =
     Some (AwaitCancelAsync k None,
           emit (logException e "Failed to cancel async task")
                (set_state PENDING w))) /\
  (forall e ti, state w = CANCELLING -> running ti = false ->
     exists w2,
       run [CancelRejected e; Resumed; StatusFulfilled ti]
           (AwaitCancelQuery k, w) = Some (Settled None, w2) /\
       calls w2 = calls w ++ [logException e "Failed to cancel async task";
                              asyncTaskStatus (taskId w)] /\
       (forall r, error ti = None -> result ti = Some r ->
          state w2 = RESOLVED /\ payload w2 = Some r) /\
       (forall se, error ti = Some se ->
          state w2 = REJECTED /\
          rejectionReason w2 = Some (ServerInternalError se))).
Proof.
  destruct w as [s pl rr t tm cf cs].
  cbn [isCancelConfirmed state calls taskId].
  split; [intros ->; reflexivity|].
  split; [intros ->; reflexivity|].
  split; [reflexivity|].
  split; [intros e ->; reflexivity|].
  intros e ti -> Hr.
  destruct ti as [i r0 er v stt]; cbn [running error result] in *; subst r0.
  destruct k, er as [se|], v as [r|]; cbn [run]; exec; cbn [run]; exec;
    (eexists; split; [reflexivity|]); cbn [calls state payload rejectionReason];
    rewrite <- ?app_assoc; cbn [app];
    (split; [reflexivity|]); split; intros; split; congruence.
Qed.

Lemma cancelAsync_cases_witness :
  cancelAsync_call InLoop confirm_world =
    Return (AwaitCancelAsync InLoop None) confirm_world /\
  cancelAsync_call InLoop cancelling_world =
    Return (AwaitCancelQuery InLoop)
           (emit (asyncTaskCancel (Some "task-1")) cancelling_world) /\
  step (CancelRejected (GQLError "network"))
       (AwaitCancelQuery InLoop, cancelling_world) =
    Some (AwaitCancelAsync InLoop None,
          emit (logException (GQLError "network") "Failed to cancel async task")
               (set_state PENDING cancelling_world)) /\
  exists w2,
    run [CancelRejected (GQLError "network"); Resumed;
         StatusFulfilled sample_done]
        (AwaitCancelQuery InLoop, cancelling_world) = Some (Settled None, w2) /\
    state w2 = RESOLVED /\ payload w2 = Some sample_result.
Proof.
  split; [exact (proj1 (cancelAsync_cases InLoop confirm_world) eq_refl)|].
  split; [exact (proj1 (proj2 (cancelAsync_cases InLoop cancelling_world))
                       eq_refl)|].
  split; [exact (proj1 (proj2 (proj2 (proj2
                   (cancelAsync_cases InLoop cancelling_world))))
                   (GQLError "network") eq_refl)|].
  destruct (proj2 (proj2 (proj2 (proj2
              (cancelAsync_cases InLoop cancelling_world))))
              (GQLError "network") sample_done eq_refl eq_refl)
    as (w2 & Hrun & _ & Hres & _).
  exists w2. split; [exact Hrun|]. exact (Hres sample_result eq_refl eq_refl).
Defined.

(** ** The public cancel operation *)

(** One step never enters CANCELLING except from PENDING, by [cancel()]. *)
Lemma cancelling_entered_by_cancel (ev : Event) (c c' : Config) :
  step ev c = Some c' ->
  state (snd c') = CANCELLING ->
  state (snd c) = CANCELLING \/ (state (snd c) = PENDING /\ ev = CancelCalled).
Proof.
  destruct c as [pc [s pl rr t tm cf cs]].
  intros Hstep.
  destruct ev as [p o n| |ti|e| |e| |ti|e| ]; destruct pc as [ | |k|k r| | |r];
    try discriminate Hstep;
    try destruct_taskInfo ti;
    destruct s; destruct cf; try destruct tm as [[ | | ]|];
    try destruct k; try destruct r;
    unfold_ctrl; cbn in *;
    try discriminate Hstep;
    injection Hstep as <-; cbn; intros; try discriminate; auto.
Qed.

(** C4.  [cancel()] changes nothing unless the result is PENDING; on a
    PENDING result it sets the state to CANCELLING and cancels the
    delay held in [timeout] when there is one, and changes nothing else:
    no call is made on any collaborator, in particular no remote cancel
    call.  In the machine a [cancel()] leaves [start] parked where it
    was.  Consequently a step ends in CANCELLING only if it started in
    CANCELLING or in PENDING. *)
Theorem cancel_frame (w : Process) :
  (state w <> PENDING -> cancel w = Return tt w) /\
  (state w = PENDING ->
     cancel w =
     Return tt (mkProcess CANCELLING (payload w) (rejectionReason w)
                          (taskId w) (option_map timer_cancel (timeout w))
                          (isCancelConfirmed w) (calls w))) /\
  (forall pc, exists w',
     step CancelCalled (pc, w) = Some (pc, w') /\ calls w' = calls w) /\
  (forall ev pc c',
     step ev (pc, w) = Some c' -> state (snd c') = CANCELLING ->
     state w = CANCELLING \/ state w = PENDING).
Proof.
  repeat split.
  - destruct w as [s pl rr t tm cf cs]; cbn; intros H.
    destruct s; try reflexivity. congruence.
  - destruct w as [s pl rr t tm cf cs]; cbn; intros ->.
    destruct tm; reflexivity.
  - intros pc. destruct w as [s pl rr t tm cf cs].
    destruct s, tm; cbn; eexists; split; reflexivity.
  - intros ev pc c' Hstep Hc.
    destruct (cancelling_entered_by_cancel _ _ _ Hstep Hc) as [H|[H _]];
      cbn in H; auto.
Qed.

Lemma cancel_frame_witness :
  cancel confirm_world = Return tt confirm_world /\
  cancel new_process =
    Return tt (mkProcess CANCELLING None None None None false []) /\
  (step CancelCalled (AwaitExecuteQuery, new_process) =
     Some (AwaitExecuteQuery,
           mkProcess CANCELLING None None None None false []) ->
   state new_process = CANCELLING \/ state new_process = PENDING).
Proof.
  split.
  - apply (proj1 (cancel_frame confirm_world)). discriminate.
  - split.
    + exact (proj1 (proj2 (cancel_frame new_process)) eq_refl).
    + intros Hstep.
      exact (proj2 (proj2 (proj2 (cancel_frame new_process)))
               CancelCalled AwaitExecuteQuery _ Hstep eq_refl).
Defined.

(** ** The poll loop *)

Lemma count_status_poll_calls (t : option string) (tis : list AsyncTaskInfo) :
  count_calls is_status_call (poll_calls t tis) = length tis.
Proof.
  induction tis as [|ti tis IH]; [reflexivity|].
  change (poll_calls t (ti :: tis))
    with ([cancellableTimeout DELAY_BETWEEN_TRIES; asyncTaskStatus t]
            ++ poll_calls t tis).
  rewrite count_calls_app, IH. reflexivity.
Qed.

Lemma polls_running (tis : list AsyncTaskInfo) : forall w,
  state w = PENDING ->
  Forall (fun ti => running ti = true) tis ->
  exists tm,
    run (polls tis) (AwaitQueryStatus, w) =
    Some (AwaitQueryStatus,
          mkProcess PENDING (payload w) (rejectionReason w) (taskId w) tm
                    (isCancelConfirmed w)
                    (calls w ++ poll_calls (taskId w) tis)).
Proof.
  induction tis as [|ti tis IH]; intros w Hs Hall.
  - exists (timeout w). destruct w; cbn in *. subst. now rewrite app_nil_r.
  - inversion Hall as [|? ? Hr Hall']; subst.
    destruct w as [s pl rr t tm cf cs]; cbn in Hs; subst.
    destruct ti as [i r er v stt]; cbn in Hr; subst.
    cbn [polls flat_map app run].
    exec. cbn [run]. exec.
    edestruct (IH (mkProcess PENDING pl rr t (Some Elapsed) cf
                    ((cs ++ [cancellableTimeout DELAY_BETWEEN_TRIES])
                        ++ [asyncTaskStatus t])))
      as (tm' & Hrun); [reflexivity|exact Hall'|].
    exists tm'. fold (polls tis). rewrite Hrun. cbn.
    now rewrite <- !app_assoc.
Qed.

Lemma scan_delays_app (l1 l2 : list Call) : forall since,
  scan_delays since (l1 ++ l2) =
  match scan_delays since l1 with
  | Some b => scan_delays b l2
  | None => None
  end.
Proof.
  induction l1 as [|c l1 IH]; intros since; [reflexivity|].
  destruct c; cbn [app scan_delays]; try apply IH.
  destruct since; [reflexivity|apply IH].
Qed.

(** One status call per status answer, plus the one in flight. *)
Lemma step_status_accounting (ev : Event) (pc pc' : Pc) (w w' : Process) :
  step ev (pc, w) = Some (pc', w') ->
  (status_calls w' + awaiting_status pc =
   status_calls w + awaiting_status pc' + Nat.b2n (is_status_answer ev))%nat.
Proof.
  destruct w as [s pl rr t tm cf cs].
  unfold status_calls. cbn [calls].
  intros Hstep.
  destruct ev as [p o n| |ti|e| |e| |ti|e| ]; destruct pc as [ | |k|k r| | |r];
    try discriminate Hstep;
    try destruct_taskInfo ti;
    destruct s; destruct cf; try destruct tm as [[ | | ]|];
    try destruct k; try destruct r;
    unfold_ctrl;
    try discriminate Hstep;
    injection Hstep as <- <-;
    rewrite ?count_calls_app; unfold count_calls; cbn; lia.
Qed.

Lemma run_status_accounting (evs : list Event) : forall pc w pc' w',
  run evs (pc, w) = Some (pc', w') ->
  (status_calls w' + awaiting_status pc =
   status_calls w + awaiting_status pc' +
   length (filter is_status_answer evs))%nat.
Proof.
  induction evs as [|ev evs IH]; intros pc w pc' w' Hrun.
  - cbn in Hrun. injection Hrun as <- <-. cbn. lia.
  - cbn [run] in Hrun.
    destruct (step ev (pc, w)) as [[pc1 w1]|] eqn:Hstep; [|discriminate].
    pose proof (step_status_accounting _ _ _ _ _ Hstep) as Ha.
    pose proof (IH _ _ _ _ Hrun) as Hb.
    cbn [filter].
    destruct (is_status_answer ev); cbn [Nat.b2n length] in *; lia.
Qed.

Lemma step_delay_inv (ev : Event) (c c' : Config) :
  delay_inv c -> step ev c = Some c' -> delay_inv c'.
Proof.
  destruct c as [pc [s pl rr t tm cf cs]].
  unfold delay_inv. cbn [fst snd calls].
  intros (since & Hscan & Hpc) Hstep.
  destruct since.
  - destruct (Hpc eq_refl) as [->|[r ->]]; clear Hpc;
      destruct ev as [p o n| |ti|e| |e| |ti|e| ];
      try discriminate Hstep;
      try destruct_taskInfo ti;
      destruct s; try destruct tm as [[ | | ]|];
      unfold_ctrl;
      injection Hstep as <-; cbn [fst snd calls];
      rewrite ?scan_delays_app, ?Hscan; cbn;
      eexists; (split; [reflexivity|]); intros; try discriminate; eauto.
  - clear Hpc.
    destruct ev as [p o n| |ti|e| |e| |ti|e| ]; destruct pc as [ | |k|k r| | |r];
      try discriminate Hstep;
      try destruct_taskInfo ti;
      destruct s; destruct cf; try destruct tm as [[ | | ]|];
      try destruct k; try destruct r;
      unfold_ctrl;
      try discriminate Hstep;
      injection Hstep as <-; cbn [fst snd calls];
      rewrite ?scan_delays_app, ?Hscan; cbn;
      eexists; (split; [reflexivity|]); intros; try discriminate; eauto.
Qed.

Lemma run_delay_inv (evs : list Event) : forall c c',
  delay_inv c -> run evs c = Some c' -> delay_inv c'.
Proof.
  induction evs as [|ev evs IH]; cbn; intros c c' Hinv Hrun.
  - now inversion Hrun; subst.
  - destruct (step ev c) as [c1|] eqn:Hstep; [|discriminate].
    eapply IH; [eapply step_delay_inv|]; eassumption.
Qed.

Lemma initial_delay_inv : delay_inv initial.
Proof. exists false. split; [reflexivity|discriminate]. Qed.

(** Cutting a list at an element that survives a filter. *)
Lemma filter_split {A} (f : A -> bool) (l : list A) : forall l1 x l2,
  filter f l = l1 ++ x :: l2 ->
  exists a b, l = a ++ x :: b /\ filter f a = l1 /\ filter f b = l2.
Proof.
  induction l as [|y l IH]; intros l1 x l2 H.
  - destruct l1; discriminate.
  - cbn [filter] in H. destruct (f y) eqn:Hy.
    + destruct l1 as [|z l1]; cbn [app] in H; injection H as E H.
      * subst y. exists [], l. cbn. auto.
      * subst z. destruct (IH _ _ _ H) as (a & b & -> & Ha & Hb).
        exists (y :: a), b. cbn. rewrite Hy, Ha. auto.
    + destruct (IH _ _ _ H) as (a & b & -> & Ha & Hb).
      exists (y :: a), b. cbn. rewrite Hy. auto.
Qed.

(** A status answer can only come while [start] waits for one, and one
    that reports a result resolves an unfinished result. *)
Lemma status_result_step (ti : AsyncTaskInfo) (r : SqlExecuteInfo)
      (pc : Pc) (w : Process) (c' : Config) :
  running ti = false -> error ti = None -> result ti = Some r ->
  in_progress w = true ->
  step (StatusFulfilled ti) (pc, w) = Some c' ->
  pc = AwaitQueryStatus /\
  c' = (Settled None, set_payload (Some r) (set_state RESOLVED w)).
Proof.
  destruct ti as [i r0 er v stt]; cbn [running error result].
  intros -> -> -> Hp Hstep.
  destruct pc; try discriminate Hstep.
  destruct w as [s pl rr t tm cf cs]; destruct s; try discriminate Hp;
    injection Hstep as <-; split; reflexivity.
Qed.

Lemma start_then_running (p : ISqlQueryParams) (o n : Z) (ti0 : AsyncTaskInfo) :
  running ti0 = true ->
  run [StartCalled p o n; SubmitFulfilled ti0] initial =
  Some (AwaitQueryStatus,
        mkProcess PENDING None None (Some (id ti0)) None false
          [asyncSqlExecuteQuery p o n; asyncTaskStatus (Some (id ti0))]).
Proof.
  destruct ti0 as [i0 r0 e0 v0 s0]; cbn [running]; intros ->. reflexivity.
Qed.

(** C5.  Take a submission that reports a running task, N status
    checks that report a running task and one more that reports a
    finished task with a result.  The execution in which nobody cancels
    returns with the result RESOLVED to that value after exactly N+1
    status calls, each two consecutive ones separated by one delay of
    [DELAY_BETWEEN_TRIES].  And in every execution whose status answers
    are these N+1, however [cancel()] and the remote cancel calls
    interleave, [start] has returned, the result is RESOLVED to that
    value, exactly N+1 status calls were made and a delay of
    [DELAY_BETWEEN_TRIES] was started between any two consecutive ones. *)
Theorem poll_until_result (p : ISqlQueryParams) (o n : Z)
        (ti0 : AsyncTaskInfo) (tis : list AsyncTaskInfo)
        (tiN : AsyncTaskInfo) (r : SqlExecuteInfo) :
  running ti0 = true ->
  Forall (fun ti => running ti = true) tis ->
  running tiN = false -> error tiN = None -> result tiN = Some r ->
  (exists w,
     run (StartCalled p o n :: SubmitFulfilled ti0 ::
          polls tis ++ [StatusFulfilled tiN]) initial = Some (Settled None, w) /\
     state w = RESOLVED /\ payload w = Some r /\
     calls w = asyncSqlExecuteQuery p o n :: asyncTaskStatus (Some (id ti0)) ::
               poll_calls (Some (id ti0)) tis /\
     status_calls w = S (length tis)) /\
  (forall evs pc w,
     run evs initial = Some (pc, w) ->
     filter is_status_answer evs = map StatusFulfilled tis ++ [StatusFulfilled tiN] ->
     pc = Settled None /\ state w = RESOLVED /\ payload w = Some r /\
     status_calls w = S (length tis) /\
     delays_between (calls w) = true).
Proof.
  intros H0 Hall HN HeN HrN. split.
  - change (StartCalled p o n :: SubmitFulfilled ti0 ::
            polls tis ++ [StatusFulfilled tiN])
      with ([StartCalled p o n; SubmitFulfilled ti0] ++
            polls tis ++ [StatusFulfilled tiN]).
    rewrite run_app, (start_then_running p o n ti0 H0), run_app.
    edestruct (polls_running tis
                 (mkProcess PENDING None None (Some (id ti0)) None false
                    [asyncSqlExecuteQuery p o n; asyncTaskStatus (Some (id ti0))]))
      as (tm & Hrun); [reflexivity|exact Hall|].
    rewrite Hrun. clear Hrun.
    destruct tiN as [iN rN eN vN sN]; cbn in HN, HeN, HrN; subst.
    cbn [run]. exec.
    eexists. split; [reflexivity|]. unfold status_calls. cbn.
    repeat split; try reflexivity.
    change (count_calls is_status_call
              ([asyncSqlExecuteQuery p o n; asyncTaskStatus (Some (id ti0))]
                 ++ poll_calls (Some (id ti0)) tis) = S (length tis)).
    now rewrite count_calls_app, count_status_poll_calls.
  - intros evs pc w Hrun Hans.
    destruct (filter_split _ _ _ _ _ Hans) as (evs1 & evs2 & -> & Ha1 & Ha2).
    rewrite run_app in Hrun.
    destruct (run evs1 initial) as [[pc1 w1]|] eqn:Hrun1; [|discriminate].
    cbn [run] in Hrun.
    destruct (step (StatusFulfilled tiN) (pc1, w1)) as [c2|] eqn:Hstep;
      [|discriminate].
    pose proof (reachable_wf _ _ Hrun1) as Hwf1.
    assert (Hpc1 : pc1 = AwaitQueryStatus)
      by (destruct pc1; try discriminate Hstep; reflexivity).
    subst pc1.
    assert (Hp : in_progress w1 = true) by (apply Hwf1).
    destruct (status_result_step _ _ _ _ _ HN HeN HrN Hp Hstep) as (_ & ->).
    pose proof (run_delay_inv _ _ _ initial_delay_inv Hrun1) as Hd1.
    pose proof (step_delay_inv _ _ _ Hd1 Hstep) as Hd2.
    apply settled_is_final in Hrun; [|reflexivity].
    injection Hrun as -> ->.
    pose proof (run_status_accounting _ _ _ _ _ Hrun1) as Hc.
    rewrite Ha1, length_map in Hc. cbn in Hc.
    repeat split; try reflexivity.
    + unfold status_calls in *. cbn [calls set_payload set_state]. lia.
    + unfold delays_between. destruct Hd2 as (b & Hb & _).
      cbn [snd] in Hb. now rewrite Hb.
Qed.

Lemma poll_until_result_witness :
  exists w,
    run [StartCalled sample_params 0 200; SubmitFulfilled sample_running;
         StatusFulfilled sample_running; TimeoutSettled;
         StatusFulfilled sample_done] initial = Some (Settled None, w) /\
    state w = RESOLVED /\ payload w = Some sample_result /\
    calls w = [asyncSqlExecuteQuery sample_params 0 200;
               asyncTaskStatus (Some "task-1");
               cancellableTimeout DELAY_BETWEEN_TRIES;
               asyncTaskStatus (Some "task-1")] /\
    status_calls w = 2%nat.
Proof.
  exact (proj1 (poll_until_result sample_params 0 200 sample_running
                  [sample_running] sample_done sample_result
                  eq_refl
                  (Forall_cons sample_running (eq_refl true) (Forall_nil _))
                  eq_refl eq_refl eq_refl)).
Defined.

(** ** Remote cancel calls *)

(** Book-keeping of one step: every remote cancel call is either in
    flight, or was answered by a success (at most one: it sets the
    flag), or was answered by a failure. *)
Lemma step_accounting (ev : Event) (pc pc' : Pc) (w w' : Process) :
  pc_inv pc w ->
  step ev (pc, w) = Some (pc', w') ->
  (cancel_calls w' + in_flight pc + Nat.b2n (isCancelConfirmed w) =
   cancel_calls w + in_flight pc' + Nat.b2n (isCancelConfirmed w') +
   Nat.b2n (is_cancel_rejected ev))%nat /\
  Nat.b2n (isCancelConfirmed w') =
  (Nat.b2n (isCancelConfirmed w) + Nat.b2n (is_cancel_fulfilled ev))%nat /\
  (cancel_calls w' <> cancel_calls w ->
   isCancelConfirmed w = false /\ state w = CANCELLING /\
   calls w' = calls w ++ [asyncTaskCancel (taskId w')]) /\
  (Nat.b2n (is_cancel_rejected ev) <= in_flight pc)%nat.
Proof.
  destruct w as [s pl rr t tm cf cs].
  unfold pc_inv, cancel_calls. cbn [calls isCancelConfirmed state].
  intros Hpc Hstep.
  destruct ev as [p o n| |ti|e| |e| |ti|e| ]; destruct pc as [ | |k|k r| | |r];
    try discriminate Hstep;
    try destruct_taskInfo ti;
    destruct s; destruct cf; try destruct tm as [[ | | ]|];
    try destruct k; try destruct r;
    unfold_ctrl;
    try discriminate Hstep;
    try (injection Hstep as <- <-);
    repeat match goal with
           | H : _ /\ _ |- _ => destruct H
           end;
    try discriminate;
    rewrite ?count_calls_app; unfold count_calls; cbn;
    repeat split; try lia; intros; try reflexivity; try lia.
Qed.

Lemma run_accounting (evs : list Event) : forall pc w pc' w',
  wf (pc, w) ->
  run evs (pc, w) = Some (pc', w') ->
  (cancel_calls w' + in_flight pc + Nat.b2n (isCancelConfirmed w) =
   cancel_calls w + in_flight pc' + Nat.b2n (isCancelConfirmed w') +
   length (filter is_cancel_rejected evs))%nat /\
  Nat.b2n (isCancelConfirmed w') =
  (Nat.b2n (isCancelConfirmed w) + length (filter is_cancel_fulfilled evs))%nat.
Proof.
  induction evs as [|ev evs IH]; intros pc w pc' w' Hwf Hrun.
  - cbn in Hrun. injection Hrun as <- <-. cbn. lia.
  - cbn [run] in Hrun.
    destruct (step ev (pc, w)) as [[pc1 w1]|] eqn:Hstep; [|discriminate].
    pose proof (step_wf _ _ _ Hwf Hstep) as Hwf1.
    destruct (step_accounting _ _ _ _ _ (proj1 Hwf) Hstep) as (Ha & Hb & _ & _).
    destruct (IH _ _ _ _ Hwf1 Hrun) as (Hc & Hd).
    cbn [fst snd] in *.
    destruct ev; cbn [filter is_cancel_rejected is_cancel_fulfilled
                      Nat.b2n length] in *; lia.
Qed.

(** Neither kind of answer makes sense unless a call is in flight. *)
Lemma wf_flight_or_confirmed (pc : Pc) (w : Process) :
  wf (pc, w) -> (in_flight pc + Nat.b2n (isCancelConfirmed w) <= 1)%nat.
Proof.
  intros (Hpc & _ & _). cbn [fst snd] in Hpc.
  destruct pc; cbn in *; destruct (isCancelConfirmed w); cbn;
    try lia; destruct Hpc; discriminate.
Qed.

(** After the remote has confirmed a cancel request, the flag stays set
    and no remote cancel call is added. *)
Lemma run_confirmed (evs : list Event) : forall pc w pc' w',
  wf (pc, w) -> isCancelConfirmed w = true ->
  run evs (pc, w) = Some (pc', w') ->
  isCancelConfirmed w' = true /\ cancel_calls w' = cancel_calls w.
Proof.
  induction evs as [|ev evs IH]; intros pc w pc' w' Hwf Hc Hrun.
  - cbn in Hrun. injection Hrun as <- <-. auto.
  - cbn [run] in Hrun.
    destruct (step ev (pc, w)) as [[pc1 w1]|] eqn:Hstep; [|discriminate].
    pose proof (step_wf _ _ _ Hwf Hstep) as Hwf1.
    destruct (step_accounting _ _ _ _ _ (proj1 Hwf) Hstep)
      as (Ha & Hb & _ & Hr).
    pose proof (wf_flight_or_confirmed _ _ Hwf) as Hle.
    pose proof (wf_flight_or_confirmed _ _ Hwf1) as Hle1.
    cbn [fst snd] in *. rewrite Hc in *. cbn [Nat.b2n] in *.
    assert (isCancelConfirmed w1 = true) as Hc1
      by (destruct (isCancelConfirmed w1); [reflexivity|cbn in Hb; lia]).
    destruct (IH _ _ _ _ Hwf1 Hc1 Hrun) as (Hc' & Hn).
    rewrite Hc1 in *. cbn [Nat.b2n] in *.
    split; [exact Hc'|lia].
Qed.

(** C6, as stated, fails: after a remote cancel call has failed, a
    second [cancel()] makes the loop send a second remote cancel call
    for the same task. *)
Lemma second_cancel_call_after_failure :
  run retry_events initial = Some (AwaitCancelQuery InLoop, retry_world) /\
  cancel_calls retry_world = 2%nat /\
  ~ (forall evs c, run evs initial = Some c ->
       (cancel_calls (snd c) <= 1)%nat).
Proof.
  split; [reflexivity|]. split; [reflexivity|].
  intros H.
  specialize (H retry_events (AwaitCancelQuery InLoop, retry_world) eq_refl).
  vm_compute in H. lia.
Qed.

(** C6, amended.  In every execution the number of remote cancel calls
    is at most one more than the number of remote cancel calls that
    failed, and at most one remote cancel call succeeds; once one has
    succeeded ([isCancelConfirmed]) no further remote cancel call is
    made, whatever happens next; and a step sends a remote cancel call
    only while [isCancelConfirmed] is false. *)
Theorem cancel_calls_bounded (evs : list Event) (pc : Pc) (w : Process) :
  run evs initial = Some (pc, w) ->
  (cancel_calls w <= 1 + length (filter is_cancel_rejected evs))%nat /\
  (length (filter is_cancel_fulfilled evs) <= 1)%nat /\
  (isCancelConfirmed w = true ->
   forall evs' pc' w', run evs' (pc, w) = Some (pc', w') ->
     cancel_calls w' = cancel_calls w) /\
  (forall ev pc' w', step ev (pc, w) = Some (pc', w') ->
     cancel_calls w' <> cancel_calls w ->
     isCancelConfirmed w = false /\
     calls w' = calls w ++ [asyncTaskCancel (taskId w')]).
Proof.
  intros Hrun.
  pose proof (reachable_wf _ _ Hrun) as Hwf.
  destruct (run_accounting _ _ _ _ _ initial_wf Hrun) as (Ha & Hb).
  pose proof (wf_flight_or_confirmed _ _ Hwf) as Hle.
  cbn in Ha, Hb.
  repeat split.
  - lia.
  - destruct (isCancelConfirmed w); cbn in *; lia.
  - intros Hc evs' pc' w' Hrun'.
    apply (run_confirmed _ _ _ _ _ Hwf Hc Hrun').
  - destruct (step_accounting _ _ _ _ _ (proj1 Hwf) H) as (_ & _ & Hg & _).
    apply Hg, H0.
  - destruct (step_accounting _ _ _ _ _ (proj1 Hwf) H) as (_ & _ & Hg & _).
    apply Hg, H0.
Qed.

Lemma cancel_calls_bounded_witness :
  run retry_events initial = Some (AwaitCancelQuery InLoop, retry_world) /\
  (cancel_calls retry_world <=
   1 + length (filter is_cancel_rejected retry_events))%nat /\
  (length (filter is_cancel_fulfilled retry_events) <= 1)%nat.
Proof.
  split; [reflexivity|].
  destruct (cancel_calls_bounded retry_events (AwaitCancelQuery InLoop)
              retry_world eq_refl) as (H1 & H2 & _).
  split; [exact H1|exact H2].
Defined.

(** ** Errors and termination *)

(** C7.  In every execution: when [start] has ended it has returned
    (never thrown) and the result is in exactly one of RESOLVED,
    REJECTED, CANCELLED, with its value stored, its error stored, or
    the error behind the cancellation logged; a status check that fails
    is logged and leaves the result unfinished; a remote cancel request
    that fails is logged and leaves the result unfinished. *)
Theorem no_error_dropped (evs : list Event) (pc : Pc) (w : Process) :
  run evs initial = Some (pc, w) ->
  (forall r, pc = Settled r ->
     r = None /\
     (state w = RESOLVED \/ state w = REJECTED \/ state w = CANCELLED)) /\
  (state w = RESOLVED -> exists v, payload w = Some v) /\
  (state w = REJECTED -> exists e, rejectionReason w = Some e) /\
  (state w = CANCELLED ->
     exists e st, In (logException e (cancel_message st)) (calls w)) /\
  (forall e c', step (StatusRejected e) (pc, w) = Some c' ->
     in_progress (snd c') = true /\
     calls (snd c') =
     calls w ++ [logException e "Failed to check async task status";
                 cancellableTimeout DELAY_BETWEEN_TRIES]) /\
  (forall e c', step (CancelRejected e) (pc, w) = Some c' ->
     in_progress (snd c') = true /\
     calls (snd c') =
     calls w ++ [logException e "Failed to cancel async task"]).
Proof.
  intros Hrun. apply reachable_wf in Hrun.
  destruct Hrun as (Hpc & Hout & _). cbn [fst snd] in *.
  unfold outcome_inv in Hout.
  split; [|split; [|split; [|split; [|split]]]].
  - intros r ->. cbn in Hpc. destruct Hpc as (-> & Hf).
    split; [reflexivity|]. now apply finished_cases.
  - intros Hs. now rewrite Hs in Hout.
  - intros Hs. now rewrite Hs in Hout.
  - intros Hs. now rewrite Hs in Hout.
  - intros e c' Hstep.
    destruct pc; try discriminate Hstep.
    cbn in Hpc.
    destruct w as [s pl rr t tm cf cs]; destruct s; try discriminate Hpc;
      injection Hstep as <-; (split; [reflexivity|]);
      cbn; now rewrite <- app_assoc.
  - intros e c' Hstep.
    destruct pc; try discriminate Hstep.
    cbn in Hpc. destruct Hpc as (Hs & _).
    destruct w as [s pl rr t tm cf cs]; cbn in Hs; subst s.
    injection Hstep as <-; split; reflexivity.
Qed.

Lemma no_error_dropped_witness :
  run cancelled_events initial = Some (Settled None, cancelled_world) /\
  (state cancelled_world = RESOLVED \/ state cancelled_world = REJECTED \/
   state cancelled_world = CANCELLED) /\
  exists e st, In (logException e (cancel_message st)) (calls cancelled_world).
Proof.
  assert (Hrun : run cancelled_events initial =
                 Some (Settled None, cancelled_world))
    by (vm_compute; reflexivity).
  split; [exact Hrun|].
  destruct (no_error_dropped cancelled_events (Settled None) cancelled_world
              Hrun) as (H1 & _ & _ & H4 & _).
  split; [exact (proj2 (H1 None eq_refl))|].
  apply H4. reflexivity.
Defined.

(** C8.  A status check that fails does not end the operation, whatever
    the state of the result: the error is logged, the delay is started
    and nothing else changes; in particular no remote cancel call is
    made in that step, also when the result is CANCELLING.  When the
    delay settles the loop goes on: a PENDING result gets the next
    status call, and a CANCELLING result whose cancel is not confirmed
    gets its remote cancel call only then, at the head of the loop. *)
Theorem status_failure_continues (e : JsError) (w : Process) :
  let w1 := set_timeout (Some Waiting)
              (emit (cancellableTimeout DELAY_BETWEEN_TRIES)
                 (emit (logException e "Failed to check async task status") w)) in
  step (StatusRejected e) (AwaitQueryStatus, w) = Some (AwaitTimeout, w1) /\
  state w1 = state w /\
  isCancelConfirmed w1 = isCancelConfirmed w /\
  cancel_calls w1 = cancel_calls w /\
  (state w = PENDING ->
     step TimeoutSettled (AwaitTimeout, w1) =
     Some (AwaitQueryStatus,
           emit (asyncTaskStatus (taskId w)) (set_timeout (Some Elapsed) w1))) /\
  (state w = CANCELLING -> isCancelConfirmed w = false ->
     step TimeoutSettled (AwaitTimeout, w1) =
     Some (AwaitCancelQuery InLoop,
           emit (asyncTaskCancel (taskId w)) (set_timeout (Some Elapsed) w1))).
Proof.
  destruct w as [s pl rr t tm cf cs].
  cbn [state isCancelConfirmed taskId].
  repeat split; intros; subst; try reflexivity.
  unfold cancel_calls. cbn [calls set_timeout emit].
  rewrite <- app_assoc, count_calls_app. cbn. lia.
Qed.

Lemma status_failure_continues_witness :
  run [StatusRejected (GQLError "network"); TimeoutSettled]
      (AwaitQueryStatus, cancelling_world) =
  Some (AwaitCancelQuery InLoop,
        mkProcess CANCELLING None None (Some "task-1") (Some Elapsed) false
          [asyncSqlExecuteQuery sample_params 0 200;
           asyncTaskStatus (Some "task-1");
           logException (GQLError "network") "Failed to check async task status";
           cancellableTimeout DELAY_BETWEEN_TRIES;
           asyncTaskCancel (Some "task-1")]).
Proof.
  cbn [run].
  rewrite (proj1 (status_failure_continues (GQLError "network")
                    cancelling_world)).
  rewrite (proj2 (proj2 (proj2 (proj2 (proj2
             (status_failure_continues (GQLError "network")
                cancelling_world))))) eq_refl eq_refl).
  reflexivity.
Defined.

(** ** Cancelling during the submission *)

(** C9.  When the user cancels while the submission is in flight and
    the submit response reports a task that is not running, [start]
    ends on that response: the result is CANCELLED when the response
    carries an error or no result, RESOLVED to the result otherwise;
    no remote cancel call and no status call has been made, and none is
    made later, since nothing changes any more. *)
Theorem cancelled_during_submit (p : ISqlQueryParams) (o n : Z) (k : nat)
        (ti : AsyncTaskInfo) :
  running ti = false ->
  exists w,
    run (StartCalled p o n :: CancelCalled :: repeat CancelCalled k ++
         [SubmitFulfilled ti]) initial = Some (Settled None, w) /\
    state w = match error ti, result ti with
              | None, Some _ => RESOLVED
              | _, _ => CANCELLED
              end /\
    (state w = RESOLVED -> payload w = result ti) /\
    cancel_calls w = 0%nat /\
    count_calls is_status_call (calls w) = 0%nat /\
    (forall evs c', run evs (Settled None, w) = Some c' ->
       c' = (Settled None, w)).
Proof.
  intros Hr.
  cbn [run]. exec. cbn [run]. exec.
  change (run (repeat CancelCalled k ++ [SubmitFulfilled ti]) ?c)
    with (run (repeat CancelCalled k ++ [SubmitFulfilled ti]) c).
  cbv [initial new_process]. cbn [app].
  rewrite run_app, repeated_cancel_noop by (cbn; discriminate).
  destruct ti as [i r er v stt]; cbn in Hr; subst r.
  destruct er, v; cbn [run]; exec; cbn [app];
    (eexists; split; [reflexivity|]);
    cbn [state payload error result calls];
    (repeat split; try reflexivity; try discriminate);
    intros evs c'; apply settled_is_final; reflexivity.
Qed.

Lemma cancelled_during_submit_witness :
  exists w,
    run [StartCalled sample_params 0 200; CancelCalled; CancelCalled;
         SubmitFulfilled sample_stopped] initial = Some (Settled None, w) /\
    state w = CANCELLED /\
    cancel_calls w = 0%nat /\
    count_calls is_status_call (calls w) = 0%nat.
Proof.
  destruct (cancelled_during_submit sample_params 0 200 1 sample_stopped
              eq_refl) as (w & Hrun & Hs & _ & Hc & Hq & _).
  exists w. split; [exact Hrun|].
  split; [exact Hs|]. split; [exact Hc|exact Hq].
Defined.

(** ** After the cancel is confirmed *)

(** C10.  In every execution, once [isCancelConfirmed] is true the
    result is not PENDING, [start] is not parked on a remote cancel call
    (so the roll-back of [cancelAsync] cannot run), and both stay so
    for the rest of the execution: the flag stays true and the result
    never becomes PENDING again. *)
Theorem confirmed_never_pending (evs : list Event) (pc : Pc) (w : Process) :
  run evs initial = Some (pc, w) ->
  isCancelConfirmed w = true ->
  state w <> PENDING /\
  (forall k, pc <> AwaitCancelQuery k) /\
  (forall k, cancelAsync_call k w = Return (AwaitCancelAsync k None) w) /\
  (forall evs' pc' w', run evs' (pc, w) = Some (pc', w') ->
     isCancelConfirmed w' = true /\ state w' <> PENDING /\
     forall k, pc' <> AwaitCancelQuery k).
Proof.
  intros Hrun Hc.
  pose proof (reachable_wf _ _ Hrun) as Hwf.
  assert (Hgen : forall pc w, wf (pc, w) -> isCancelConfirmed w = true ->
            state w <> PENDING /\ forall k, pc <> AwaitCancelQuery k).
  { clear. intros pc w (Hpc & _ & Hconf) Hc. cbn [fst snd] in *.
    split; [auto|]. intros k ->. cbn in Hpc. destruct Hpc; congruence. }
  destruct (Hgen _ _ Hwf Hc) as (Hs & Hk).
  repeat split; try assumption.
  - intros k. unfold cancelAsync_call, bind, get. now rewrite Hc.
  - now destruct (run_confirmed _ _ _ _ _ Hwf Hc H).
  - destruct (run_confirmed _ _ _ _ _ Hwf Hc H) as (Hc' & _).
    apply (Hgen pc' w'); [|exact Hc'].
    eapply run_wf; eassumption.
  - destruct (run_confirmed _ _ _ _ _ Hwf Hc H) as (Hc' & _).
    apply (Hgen pc' w'); [|exact Hc'].
    eapply run_wf; eassumption.
Qed.

Lemma confirmed_never_pending_witness :
  run confirm_events initial = Some (AwaitQueryStatus, confirm_world) /\
  isCancelConfirmed confirm_world = true /\
  state confirm_world <> PENDING /\
  (forall evs' pc' w',
     run evs' (AwaitQueryStatus, confirm_world) = Some (pc', w') ->
     isCancelConfirmed w' = true /\ state w' <> PENDING).
Proof.
  split; [reflexivity|]. split; [reflexivity|].
  destruct (confirmed_never_pending confirm_events AwaitQueryStatus
              confirm_world eq_refl eq_refl) as (H1 & _ & _ & H4).
  split; [exact H1|].
  intros evs' pc' w' Hrun.
  destruct (H4 evs' pc' w' Hrun) as (Ha & Hb & _).
  split; [exact Ha|exact Hb].
Defined.

(** ** Further properties of the controller *)

Lemma run_snoc (evs : list Event) (ev : Event) (c : Config) :
  run (evs ++ [ev]) c =
  match run evs c with
  | Some c1 => step ev c1
  | None => None
  end.
Proof.
  rewrite run_app. destruct (run evs c) as [c1|]; [|reflexivity].
  cbn. now destruct (step ev c1).
Qed.

(** Induction over the executions, oldest event first. *)
Lemma reachable_ind (P : list Event -> Config -> Prop) :
  P [] initial ->
  (forall evs c ev c',
     run evs initial = Some c -> P evs c -> step ev c = Some c' ->
     P (evs ++ [ev]) c') ->
  forall evs c, run evs initial = Some c -> P evs c.
Proof.
  intros H0 Hstep evs.
  induction evs as [|ev evs IH] using rev_ind; intros c Hrun.
  - cbn in Hrun. injection Hrun as <-. exact H0.
  - rewrite run_snoc in Hrun.
    destruct (run evs initial) as [c1|] eqn:Hrun1; [|discriminate].
    eapply Hstep; eauto.
Qed.

(** In an execution the result is finished exactly when [start] has
    returned. *)
Lemma finished_iff_settled (evs : list Event) (pc : Pc) (w : Process) :
  run evs initial = Some (pc, w) ->
  (finished w = true <-> pc = Settled None).
Proof.
  intros Hrun. apply reachable_wf in Hrun. destruct Hrun as (Hpc & _).
  cbn [fst snd] in Hpc.
  split.
  - intros Hf. destruct pc; cbn [pc_inv] in Hpc;
      try (exfalso; unfold in_progress, finished in *;
           destruct (state w); intuition discriminate).
    destruct Hpc as (-> & _). reflexivity.
  - intros ->. cbn [pc_inv] in Hpc. tauto.
Qed.

(** X1.  Once the result is finished, [start] has returned and nothing
    that happens afterwards changes the object or makes a call on a
    collaborator: later [cancel()] calls are the only possible events
    and they do nothing. *)
Theorem terminal_is_final (evs : list Event) (pc : Pc) (w : Process) :
  run evs initial = Some (pc, w) ->
  finished w = true ->
  pc = Settled None /\
  forall evs' c', run evs' (pc, w) = Some c' ->
    c' = (pc, w) /\ Forall (fun ev => ev = CancelCalled) evs'.
Proof.
  intros Hrun Hf.
  pose proof (proj1 (finished_iff_settled _ _ _ Hrun) Hf) as ->.
  split; [reflexivity|].
  intros evs'. induction evs' as [|ev evs' IH]; intros c' Hrun'.
  - cbn in Hrun'. injection Hrun' as <-. split; [reflexivity|constructor].
  - pose proof (settled_is_final _ _ _ Hf _ Hrun') as ->.
    cbn [run] in Hrun'.
    destruct (step ev (Settled None, w)) as [c1|] eqn:Hstep; [|discriminate].
    assert (Hev : ev = CancelCalled)
      by (destruct ev; try discriminate Hstep; reflexivity).
    pose proof (settled_is_final [ev] None w Hf c1) as Hc1.
    cbn [run] in Hc1. rewrite Hstep in Hc1. specialize (Hc1 eq_refl). subst c1.
    split; [reflexivity|]. constructor; [exact Hev|].
    apply (IH _ Hrun').
Qed.

Lemma terminal_is_final_witness :
  run cancelled_events initial = Some (Settled None, cancelled_world) /\
  forall evs' c', run evs' (Settled None, cancelled_world) = Some c' ->
    c' = (Settled None, cancelled_world).
Proof.
  assert (Hrun : run cancelled_events initial =
                 Some (Settled None, cancelled_world))
    by (vm_compute; reflexivity).
  split; [exact Hrun|].
  intros evs' c' Hrun'.
  exact (proj1 (proj2 (terminal_is_final cancelled_events (Settled None)
                         cancelled_world Hrun eq_refl) evs' c' Hrun')).
Defined.

(** X2.  [cancel()] never attempts a transition that the result does
    not allow, whatever the state of the object, and calling it twice
    has the effect of calling it once. *)
Theorem cancel_idempotent (w : Process) :
  exists w1,
    cancel w = Return tt w1 /\ cancel w1 = Return tt w1 /\
    (state w1 = PENDING -> False) /\
    calls w1 = calls w /\ isCancelConfirmed w1 = isCancelConfirmed w /\
    taskId w1 = taskId w.
Proof.
  destruct w as [s pl rr t tm cf cs].
  destruct s, tm as [[ | | ]|]; cbn; eexists;
    (split; [reflexivity|]); cbn; repeat split; try reflexivity;
    discriminate.
Qed.

(** What one step adds to the record of calls. *)
Lemma step_calls (ev : Event) (pc pc' : Pc) (w w' : Process) :
  (past_submission pc = true -> taskId w <> None) ->
  step ev (pc, w) = Some (pc', w') ->
  exists l,
    calls w' = calls w ++ l /\
    filter is_submit_call l = submissions [ev] /\
    match pc with
    | NotStarted =>
      (pc' = NotStarted /\ l = []) \/
      (exists p o n, ev = StartCalled p o n /\
                     l = [asyncSqlExecuteQuery p o n] /\
                     pc' = AwaitExecuteQuery)
    | _ => pc' <> NotStarted /\ submissions [ev] = []
    end /\
    (forall k t, In k l -> call_task k = Some t ->
       t = taskId w' /\ t <> None) /\
    (taskId w' = taskId w \/
     (pc = AwaitExecuteQuery /\
      exists ti, ev = SubmitFulfilled ti /\ taskId w' = Some (id ti))) /\
    (past_submission pc' = true -> taskId w' <> None) /\
    (before_answer pc' = true ->
     before_answer pc = true /\ forall k, In k l -> call_task k = None).
Proof.
  destruct w as [s pl rr t tm cf cs].
  cbn [taskId calls].
  intros Ht Hstep.
  destruct ev as [p o n| |ti|e| |e| |ti|e| ]; destruct pc as [ | |k|k r| | |r];
    try discriminate Hstep;
    try (destruct ti as [i r0 er v stt]; destruct r0, er, v);
    destruct s; destruct cf; try destruct tm as [[ | | ]|];
    try destruct k; try destruct r;
    destruct t as [t|];
    try (exfalso; apply Ht; reflexivity);
    clear Ht;
    unfold_ctrl; cbv [id running error result status] in Hstep;
    try discriminate Hstep;
    injection Hstep as <- <-;
    rewrite <- ?app_assoc; cbn [app];
    first [ exists []; split; [now rewrite app_nil_r|]
          | eexists; split; [reflexivity|] ];
    cbn [filter is_submit_call submissions flat_map app In call_task
         past_submission before_answer];
    repeat split; intros; try discriminate; try congruence;
    try (left; split; reflexivity);
    try (right; eexists _, _, _; repeat split; reflexivity);
    try (left; reflexivity);
    try (right; split; [reflexivity|]; eexists; split; reflexivity);
    repeat match goal with
           | H : _ \/ _ |- _ => destruct H
           | H : False |- _ => destruct H
           end;
    subst; cbn in *; try discriminate; try congruence.
Qed.

Lemma submissions_app (evs1 evs2 : list Event) :
  submissions (evs1 ++ evs2) = submissions evs1 ++ submissions evs2.
Proof. unfold submissions. apply flat_map_app. Qed.

Lemma initial_task_inv : task_inv initial.
Proof.
  unfold task_inv. cbn. repeat split; intros; try discriminate; contradiction.
Qed.

Lemma step_task_inv (ev : Event) (c c' : Config) :
  task_inv c -> step ev c = Some c' -> task_inv c'.
Proof.
  destruct c as [pc w], c' as [pc' w'].
  unfold task_inv. cbn [fst snd].
  intros (Hpast & Hbefore & Hall) Hstep.
  destruct (step_calls _ _ _ _ _ Hpast Hstep)
    as (l & Hl & _ & _ & Hnew & Hid & Hpast' & Hbefore').
  cbn [fst snd] in *.
  split; [exact Hpast'|]. split.
  - intros Hb k Hk. destruct (Hbefore' Hb) as (Hb0 & Hl0).
    rewrite Hl in Hk. apply in_app_or in Hk. destruct Hk as [Hk|Hk].
    + exact (Hbefore Hb0 k Hk).
    + exact (Hl0 k Hk).
  - intros k t Hk Hkt.
    rewrite Hl in Hk. apply in_app_or in Hk. destruct Hk as [Hk|Hk].
    + destruct Hid as [Hid|(-> & _)].
      * rewrite Hid. exact (Hall k t Hk Hkt).
      * rewrite (Hbefore eq_refl k Hk) in Hkt. discriminate.
    + exact (Hnew k t Hk Hkt).
Qed.

Lemma reachable_task_inv (evs : list Event) (c : Config) :
  run evs initial = Some c -> task_inv c.
Proof.
  revert evs c.
  apply (reachable_ind (fun _ c => task_inv c)).
  - exact initial_task_inv.
  - intros evs c ev c' _ Hinv Hstep. exact (step_task_inv _ _ _ Hinv Hstep).
Qed.

(** X3.  In every execution [start] sends the submission exactly once,
    as the first call it makes on any collaborator, with the query
    parameters it was given, [rowOffset] as offset and [count] as limit;
    before [start] is called no call is made at all, whatever
    [cancel()] calls come first. *)
Theorem submission_once (evs : list Event) (pc : Pc) (w : Process) :
  run evs initial = Some (pc, w) ->
  filter is_submit_call (calls w) = submissions evs /\
  (pc = NotStarted -> calls w = []) /\
  (pc <> NotStarted ->
   exists p o n rest,
     In (StartCalled p o n) evs /\
     calls w = asyncSqlExecuteQuery p o n :: rest /\
     filter is_submit_call rest = []).
Proof.
  revert evs pc w.
  assert (H : forall evs c, run evs initial = Some c ->
            task_inv c /\
            filter is_submit_call (calls (snd c)) = submissions evs /\
            (fst c = NotStarted -> calls (snd c) = []) /\
            (fst c <> NotStarted ->
             exists p o n rest,
               In (StartCalled p o n) evs /\
               calls (snd c) = asyncSqlExecuteQuery p o n :: rest /\
               filter is_submit_call rest = [])).
  { apply (reachable_ind (fun evs c =>
            task_inv c /\
            filter is_submit_call (calls (snd c)) = submissions evs /\
            (fst c = NotStarted -> calls (snd c) = []) /\
            (fst c <> NotStarted ->
             exists p o n rest,
               In (StartCalled p o n) evs /\
               calls (snd c) = asyncSqlExecuteQuery p o n :: rest /\
               filter is_submit_call rest = []))).
    - split; [exact initial_task_inv|]. cbn.
      repeat split; try reflexivity. intros H; congruence.
    - intros evs [pc w] ev [pc' w'] _ (Hinv & Hf & Hn & Hs) Hstep.
      cbn [fst snd] in *.
      split; [exact (step_task_inv _ _ _ Hinv Hstep)|].
      destruct (step_calls _ _ _ _ _ (proj1 Hinv) Hstep)
        as (l & Hl & Hfl & Hpc & _).
      cbn [fst snd] in *.
      rewrite Hl, filter_app, submissions_app, Hf, Hfl.
      split; [reflexivity|].
      destruct pc.
      1: { destruct Hpc as [(-> & ->)|(p & o & n & -> & -> & ->)].
           - rewrite app_nil_r. split; [exact Hn|congruence].
           - rewrite (Hn eq_refl). split; [discriminate|].
             intros _. exists p, o, n, []. cbn.
             split; [apply in_or_app; right; left; reflexivity|].
             split; reflexivity. }
      all: destruct Hpc as (Hpc' & Hnone);
        (split; [intros; congruence|]); intros _;
        destruct Hs as (p & o & n & rest & Hin & Hc & Hr);
          [discriminate|];
        exists p, o, n, (rest ++ l);
        (split; [apply in_or_app; left; exact Hin|]);
        rewrite Hc; (split; [reflexivity|]);
        rewrite filter_app, Hr, Hfl, Hnone; reflexivity. }
  intros evs pc w Hrun. destruct (H evs (pc, w) Hrun) as (_ & H1 & H2 & H3).
  cbn [fst snd] in *. auto.
Qed.

Lemma submission_once_witness :
  run retry_events initial = Some (AwaitCancelQuery InLoop, retry_world) /\
  exists p o n rest,
    In (StartCalled p o n) retry_events /\
    calls retry_world = asyncSqlExecuteQuery p o n :: rest /\
    filter is_submit_call rest = [].
Proof.
  split; [reflexivity|].
  apply (proj2 (proj2 (submission_once retry_events (AwaitCancelQuery InLoop)
                         retry_world eq_refl))).
  discriminate.
Defined.

(** X4.  In every execution each remote status call and each remote
    cancel call is made for the task identifier that the answer to the
    submission returned, which is the one the object holds; no such
    call is made before the submission is answered. *)
Theorem task_id_integrity (evs : list Event) (pc : Pc) (w : Process) :
  run evs initial = Some (pc, w) ->
  (forall k t, In k (calls w) -> call_task k = Some t ->
     t = taskId w /\
     exists ti, In (SubmitFulfilled ti) evs /\ t = Some (id ti)) /\
  (before_answer pc = true ->
   taskId w = None /\ forall k, In k (calls w) -> call_task k = None).
Proof.
  revert evs pc w.
  assert (H : forall evs c, run evs initial = Some c ->
            task_inv c /\
            (before_answer (fst c) = true -> taskId (snd c) = None) /\
            (forall i, taskId (snd c) = Some i ->
               exists ti, In (SubmitFulfilled ti) evs /\ id ti = i)).
  { apply (reachable_ind (fun evs c =>
            task_inv c /\
            (before_answer (fst c) = true -> taskId (snd c) = None) /\
            (forall i, taskId (snd c) = Some i ->
               exists ti, In (SubmitFulfilled ti) evs /\ id ti = i))).
    - split; [exact initial_task_inv|]. cbn. split; [reflexivity|].
      intros i Hi. discriminate.
    - intros evs [pc w] ev [pc' w'] _ (Hinv & Hb & Hid) Hstep.
      cbn [fst snd] in *.
      split; [exact (step_task_inv _ _ _ Hinv Hstep)|].
      destruct (step_calls _ _ _ _ _ (proj1 Hinv) Hstep)
        as (l & _ & _ & _ & _ & Ht & _ & Hb').
      cbn [fst snd] in *.
      split.
      + intros Hb1. destruct (Hb' Hb1) as (Hb0 & _).
        destruct Ht as [Ht|(-> & ti & -> & _)].
        * rewrite Ht. exact (Hb Hb0).
        * destruct pc'; try discriminate Hb1;
            cbv in Hstep; destruct ti as [i r0 er v stt];
            destruct w as [s pl rr t tm cf cs];
            destruct r0, er, v, s, cf; discriminate Hstep.
      + intros i Hi. destruct Ht as [Ht|(-> & ti & -> & Ht)].
        * rewrite Ht in Hi. destruct (Hid i Hi) as (ti & Hin & <-).
          exists ti. split; [apply in_or_app; left; exact Hin|reflexivity].
        * exists ti. split; [apply in_or_app; right; left; reflexivity|].
          congruence. }
  intros evs pc w Hrun. destruct (H evs (pc, w) Hrun) as ((_ & Hb & Hall) & Hn & Hid).
  cbn [fst snd] in *. split.
  - intros k t Hk Hkt. destruct (Hall k t Hk Hkt) as (Ht & Hne).
    split; [exact Ht|].
    destruct t as [i|]; [|congruence].
    destruct (Hid i (eq_sym Ht)) as (ti & Hin & <-).
    exists ti. split; [exact Hin|reflexivity].
  - intros Hb1. split; [exact (Hn Hb1)|exact (Hb Hb1)].
Qed.

Lemma task_id_integrity_witness :
  run retry_events initial = Some (AwaitCancelQuery InLoop, retry_world) /\
  forall k t, In k (calls retry_world) -> call_task k = Some t ->
    t = Some "task-1".
Proof.
  split; [reflexivity|].
  intros k t Hk Hkt.
  exact (proj1 (proj1 (task_id_integrity retry_events (AwaitCancelQuery InLoop)
                         retry_world eq_refl) k t Hk Hkt)).
Defined.

(** X5.  When the answer to the submission already reports the task as
    finished and nobody has cancelled, [start] returns on that answer
    without a single status call or delay: the result is RESOLVED to the
    result of the answer, or REJECTED with its error or with the "no
    result" error; the task identifier of the answer is stored in every
    case. *)
Theorem immediate_completion (p : ISqlQueryParams) (o n : Z)
        (ti : AsyncTaskInfo) :
  running ti = false ->
  exists w,
    run [StartCalled p o n; SubmitFulfilled ti] initial =
      Some (Settled None, w) /\
    calls w = [asyncSqlExecuteQuery p o n] /\
    taskId w = Some (id ti) /\
    match error ti, result ti with
    | Some se, _ =>
      state w = REJECTED /\
      rejectionReason w = Some (ServerInternalError se)
    | None, None =>
      state w = REJECTED /\
      rejectionReason w = Some (Error "Tasks execution returns no result")
    | None, Some r => state w = RESOLVED /\ payload w = Some r
    end.
Proof.
  destruct ti as [i r er v stt]; cbn [running id error result].
  intros ->.
  destruct er, v; cbn; eexists; (split; [reflexivity|]); cbn;
    repeat split; reflexivity.
Qed.

Lemma immediate_completion_witness :
  exists w,
    run [StartCalled sample_params 0 200; SubmitFulfilled sample_done]
        initial = Some (Settled None, w) /\
    calls w = [asyncSqlExecuteQuery sample_params 0 200] /\
    state w = RESOLVED /\ payload w = Some sample_result.
Proof.
  destruct (immediate_completion sample_params 0 200 sample_done eq_refl)
    as (w & Hrun & Hc & _ & Hs & Hp).
  exists w. repeat split; assumption.
Defined.

(** X6.  A [cancel()] that arrives while [start] sleeps between two
    status checks, on a result still PENDING, cancels the delay, and
    the loop that wakes up sends the remote cancel call for the task
    before anything else. *)
Theorem cancel_wakes_delay (evs : list Event) (w : Process) :
  run evs initial = Some (AwaitTimeout, w) ->
  state w = PENDING ->
  run [CancelCalled; TimeoutSettled] (AwaitTimeout, w) =
  Some (AwaitCancelQuery InLoop,
        emit (asyncTaskCancel (taskId w))
             (set_timeout (Some TimerCancelled) (set_state CANCELLING w))).
Proof.
  intros Hrun Hs. apply reachable_wf in Hrun.
  destruct Hrun as ((_ & Htm) & _ & Hconf). cbn [fst snd] in *.
  destruct w as [s pl rr t tm cf cs]. cbn in Hs, Htm, Hconf. subst s.
  destruct cf; [exfalso; now apply Hconf|].
  destruct Htm as [-> | ->]; reflexivity.
Qed.

(** X7.  A [cancel()] that arrives while a status check is in flight
    does not shorten the delay that follows that check: the delay is
    started after the [cancel()], a repeated [cancel()] leaves it
    alone, and the remote cancel call is sent only when it has run to
    its end. *)
Theorem cancel_during_status_waits (evs : list Event) (w : Process)
        (ti : AsyncTaskInfo) :
  run evs initial = Some (AwaitQueryStatus, w) ->
  state w = PENDING ->
  running ti = true ->
  exists w1,
    run [CancelCalled; StatusFulfilled ti] (AwaitQueryStatus, w) =
      Some (AwaitTimeout, w1) /\
    state w1 = CANCELLING /\ timeout w1 = Some Waiting /\
    calls w1 = calls w ++ [cancellableTimeout DELAY_BETWEEN_TRIES] /\
    step CancelCalled (AwaitTimeout, w1) = Some (AwaitTimeout, w1) /\
    step TimeoutSettled (AwaitTimeout, w1) =
      Some (AwaitCancelQuery InLoop,
            emit (asyncTaskCancel (taskId w))
                 (set_timeout (Some Elapsed) w1)).
Proof.
  intros Hrun Hs Hr. apply reachable_wf in Hrun.
  destruct Hrun as (_ & _ & Hconf). cbn [fst snd] in *.
  destruct w as [s pl rr t tm cf cs]. cbn in Hs, Hconf. subst s.
  destruct cf; [exfalso; now apply Hconf|].
  destruct ti as [i r er v stt]; cbn in Hr; subst r.
  destruct tm as [[ | | ]|]; cbn; eexists; (split; [reflexivity|]);
    repeat split; reflexivity.
Qed.

Lemma step_unsent_cancel (ev : Event) (pc pc' : Pc) (w w' : Process) :
  step ev (pc, w) = Some (pc', w') ->
  (cancel_calls w' + unsent_cancel pc' w' <=
   cancel_calls w + unsent_cancel pc w +
   Nat.b2n (is_cancel_invocation ev))%nat /\
  (state w' = CANCELLING \/ state w' = CANCELLED ->
   state w = CANCELLING \/ state w = CANCELLED \/ ev = CancelCalled).
Proof.
  destruct w as [s pl rr t tm cf cs].
  unfold cancel_calls, unsent_cancel. cbn [calls isCancelConfirmed state].
  intros Hstep.
  destruct ev as [p o n| |ti|e| |e| |ti|e| ]; destruct pc as [ | |k|k r| | |r];
    try discriminate Hstep;
    try destruct_taskInfo ti;
    destruct s; destruct cf; try destruct tm as [[ | | ]|];
    try destruct k; try destruct r;
    unfold_ctrl;
    try discriminate Hstep;
    injection Hstep as <- <-;
    rewrite ?count_calls_app; unfold count_calls; cbn;
    (split; [lia|]); intros [H|H]; try discriminate H; auto.
Qed.

Lemma run_unsent_cancel (evs : list Event) : forall pc w pc' w',
  run evs (pc, w) = Some (pc', w') ->
  (cancel_calls w' + unsent_cancel pc' w' <=
   cancel_calls w + unsent_cancel pc w +
   length (filter is_cancel_invocation evs))%nat /\
  (filter is_cancel_invocation evs = [] ->
   state w' = CANCELLING \/ state w' = CANCELLED ->
   state w = CANCELLING \/ state w = CANCELLED).
Proof.
  induction evs as [|ev evs IH]; intros pc w pc' w' Hrun.
  - cbn in Hrun. injection Hrun as <- <-. cbn. split; [lia|auto].
  - cbn [run] in Hrun.
    destruct (step ev (pc, w)) as [[pc1 w1]|] eqn:Hstep; [|discriminate].
    destruct (step_unsent_cancel _ _ _ _ _ Hstep) as (Ha & Hb).
    destruct (IH _ _ _ _ Hrun) as (Hc & Hd).
    split.
    + cbn [filter].
      destruct (is_cancel_invocation ev); cbn [Nat.b2n length] in *; lia.
    + cbn [filter]. intros Hnil Hs.
      destruct ev; cbn in Hnil; try discriminate Hnil;
        destruct (Hb (Hd Hnil Hs)) as [H|[H|H]]; auto; discriminate H.
Qed.

(** X8.  The controller never cancels on its own: in every execution
    the number of remote cancel calls is at most the number of
    [cancel()] invocations, and when [cancel()] was never invoked no
    remote cancel call is made and the result is neither CANCELLING
    nor CANCELLED. *)
Theorem no_cancel_without_request (evs : list Event) (pc : Pc) (w : Process) :
  run evs initial = Some (pc, w) ->
  (cancel_calls w <= length (filter is_cancel_invocation evs))%nat /\
  (filter is_cancel_invocation evs = [] ->
   cancel_calls w = 0%nat /\ state w <> CANCELLING /\ state w <> CANCELLED).
Proof.
  intros Hrun.
  destruct (run_unsent_cancel _ _ _ _ _ Hrun) as (Ha & Hb).
  cbn in Ha. split; [lia|].
  intros Hnil. rewrite Hnil in Ha. cbn in Ha.
  split; [lia|].
  split; intros Hs;
    (destruct (Hb Hnil) as [H|H]; [auto|discriminate H|discriminate H]).
Qed.

Lemma no_cancel_without_request_witness :
  run retry_events initial = Some (AwaitCancelQuery InLoop, retry_world) /\
  (cancel_calls retry_world <=
   length (filter is_cancel_invocation retry_events))%nat.
Proof.
  split; [reflexivity|].
  exact (proj1 (no_cancel_without_request retry_events
                  (AwaitCancelQuery InLoop) retry_world eq_refl)).
Defined.

Lemma cancel_wakes_delay_witness :
  run sleeping_events initial = Some (AwaitTimeout, sleeping_world) /\
  run [CancelCalled; TimeoutSettled] (AwaitTimeout, sleeping_world) =
  Some (AwaitCancelQuery InLoop,
        emit (asyncTaskCancel (Some "task-1"))
             (set_timeout (Some TimerCancelled)
                          (set_state CANCELLING sleeping_world))).
Proof.
  split; [reflexivity|].
  exact (cancel_wakes_delay sleeping_events sleeping_world eq_refl eq_refl).
Defined.

Lemma cancel_during_status_waits_witness :
  run polling_events initial = Some (AwaitQueryStatus, polling_world) /\
  exists w1,
    run [CancelCalled; StatusFulfilled sample_running]
        (AwaitQueryStatus, polling_world) = Some (AwaitTimeout, w1) /\
    state w1 = CANCELLING /\ timeout w1 = Some Waiting.
Proof.
  split; [reflexivity|].
  destruct (cancel_during_status_waits polling_events polling_world
              sample_running eq_refl eq_refl eq_refl)
    as (w1 & Hrun & Hs & Ht & _).
  exists w1. repeat split; assumption.
Defined.

Lemma step_log_accounting (ev : Event) (pc pc' : Pc) (w w' : Process) :
  pc_inv pc w ->
  step ev (pc, w) = Some (pc', w') ->
  (log_calls w' + cancelled w =
   log_calls w + cancelled w' +
   Nat.b2n (is_status_rejected ev) + Nat.b2n (is_cancel_rejected ev))%nat.
Proof.
  destruct w as [s pl rr t tm cf cs].
  unfold pc_inv, log_calls, cancelled. cbn [calls state].
  intros Hpc Hstep.
  destruct ev as [p o n| |ti|e| |e| |ti|e| ]; destruct pc as [ | |k|k r| | |r];
    try discriminate Hstep;
    try destruct_taskInfo ti;
    destruct s; destruct cf; try destruct tm as [[ | | ]|];
    try destruct k; try destruct r;
    unfold_ctrl;
    try discriminate Hstep;
    try (injection Hstep as <- <-);
    repeat match goal with
           | H : _ /\ _ |- _ => destruct H
           end;
    try discriminate;
    rewrite ?count_calls_app; unfold count_calls; cbn; lia.
Qed.

Lemma run_log_accounting (evs : list Event) : forall pc w pc' w',
  wf (pc, w) ->
  run evs (pc, w) = Some (pc', w') ->
  (log_calls w' + cancelled w =
   log_calls w + cancelled w' +
   length (filter is_status_rejected evs) +
   length (filter is_cancel_rejected evs))%nat.
Proof.
  induction evs as [|ev evs IH]; intros pc w pc' w' Hwf Hrun.
  - cbn in Hrun. injection Hrun as <- <-. cbn. lia.
  - cbn [run] in Hrun.
    destruct (step ev (pc, w)) as [[pc1 w1]|] eqn:Hstep; [|discriminate].
    pose proof (step_wf _ _ _ Hwf Hstep) as Hwf1.
    pose proof (step_log_accounting _ _ _ _ _ (proj1 Hwf) Hstep) as Ha.
    pose proof (IH _ _ _ _ Hwf1 Hrun) as Hb.
    cbn [fst snd] in *.
    destruct ev; cbn [filter is_status_rejected is_cancel_rejected
                      Nat.b2n length] in *; lia.
Qed.

(** X9.  The controller logs exactly its failures: in every execution
    the number of [logException] calls is the number of status checks
    that failed, plus the number of remote cancel requests that failed,
    plus one if the result is CANCELLED.  Nothing is logged when a
    result is resolved or rejected. *)
Theorem log_accounting (evs : list Event) (pc : Pc) (w : Process) :
  run evs initial = Some (pc, w) ->
  log_calls w =
  (length (filter is_status_rejected evs) +
   length (filter is_cancel_rejected evs) + cancelled w)%nat.
Proof.
  intros Hrun.
  pose proof (run_log_accounting _ _ _ _ _ initial_wf Hrun) as H.
  cbn in H. lia.
Qed.

Lemma log_accounting_witness :
  run retry_events initial = Some (AwaitCancelQuery InLoop, retry_world) /\
  log_calls retry_world = 1%nat.
Proof.
  split; [reflexivity|].
  exact (log_accounting retry_events (AwaitCancelQuery InLoop) retry_world
                        eq_refl).
Defined.

Lemma step_provenance (ev : Event) (pc pc' : Pc) (w w' : Process) :
  pc_inv pc w ->
  step ev (pc, w) = Some (pc', w') ->
  match state w' with
  | RESOLVED =>
    (state w = RESOLVED /\ payload w' = payload w) \/
    (exists ti r, finishing_answer ev = Some ti /\ error ti = None /\
                  result ti = Some r /\ payload w' = Some r)
  | REJECTED =>
    (state w = REJECTED /\ rejectionReason w' = rejectionReason w) \/
    (exists e, ev = SubmitRejected e /\ rejectionReason w' = Some e) \/
    (exists ti, finishing_answer ev = Some ti /\
       match error ti, result ti with
       | Some se, _ => rejectionReason w' = Some (ServerInternalError se)
       | None, None =>
         rejectionReason w' = Some (Error "Tasks execution returns no result")
       | None, Some _ => False
       end)
  | _ => True
  end.
Proof.
  destruct w as [s pl rr t tm cf cs].
  unfold pc_inv. cbn [state payload rejectionReason].
  intros Hpc Hstep.
  destruct ev as [p o n| |ti|e| |e| |ti|e| ]; destruct pc as [ | |k|k r| | |r];
    try discriminate Hstep;
    try (destruct ti as [i r0 er v stt]; destruct r0, er, v);
    destruct s; destruct cf; try destruct tm as [[ | | ]|];
    try destruct k; try destruct r;
    unfold_ctrl; cbv [id running error result status] in Hstep;
    try discriminate Hstep;
    try discriminate Hpc;
    try (destruct Hpc as (Hpc1 & Hpc2); discriminate);
    clear Hpc;
    injection Hstep as <- <-;
    cbn [state payload rejectionReason];
    try exact I;
    try (left; split; reflexivity);
    try (right; left; eexists; split; reflexivity);
    try (right; eexists _, _; cbn; repeat split; reflexivity);
    try (right; right; eexists; cbn; split; reflexivity).
Qed.

(** X10.  The outcome stored in the object is always what the remote
    said: in every execution a RESOLVED result holds the result of an
    answer (to the submission or to a status check) that reported the
    task finished without error, and a REJECTED result holds the error
    the submission threw, or the error of an answer that reported the
    task finished, or the "no result" error for an answer that reported
    it finished with neither error nor result. *)
Theorem outcome_provenance (evs : list Event) (pc : Pc) (w : Process) :
  run evs initial = Some (pc, w) -> provenance evs w.
Proof.
  revert evs pc w.
  assert (H : forall evs c, run evs initial = Some c -> provenance evs (snd c)).
  { apply (reachable_ind (fun evs c => provenance evs (snd c))).
    - exact I.
    - intros evs [pc w] ev [pc' w'] Hrun Hp Hstep. cbn [snd] in *.
      pose proof (step_provenance _ _ _ _ _
                    (proj1 (reachable_wf _ _ Hrun)) Hstep) as Hs.
      cbn [fst snd] in Hs.
      unfold provenance in *.
      destruct (state w').
      + exact I.
      + exact I.
      + destruct Hs as [(Hs & Hpl)|(ti & r & Hf & He & Hr & Hpl)].
        * rewrite Hs in Hp. destruct Hp as (ev0 & ti & r & Hin & Hrest).
          exists ev0, ti, r. rewrite Hpl.
          split; [apply in_or_app; left; exact Hin|exact Hrest].
        * exists ev, ti, r.
          split; [apply in_or_app; right; left; reflexivity|auto].
      + destruct Hs as [(Hs & Hrr)|[(e & -> & Hrr)|(ti & Hf & Hrr)]].
        * rewrite Hs in Hp. rewrite Hrr.
          destruct Hp as [(e & Hin & He)|(ev0 & ti & Hin & Hrest)].
          -- left. exists e. split; [apply in_or_app; left; exact Hin|exact He].
          -- right. exists ev0, ti.
             split; [apply in_or_app; left; exact Hin|exact Hrest].
        * left. exists e.
          split; [apply in_or_app; right; left; reflexivity|exact Hrr].
        * right. exists ev, ti.
          split; [apply in_or_app; right; left; reflexivity|auto].
      + exact I. }
  intros evs pc w Hrun. exact (H evs (pc, w) Hrun).
Qed.

Lemma outcome_provenance_witness :
  run resolved_events initial = Some (Settled None, resolved_world) /\
  exists ev ti r,
    In ev resolved_events /\ finishing_answer ev = Some ti /\
    error ti = None /\ result ti = Some r /\
    payload resolved_world = Some r.
Proof.
  split; [reflexivity|].
  exact (outcome_provenance resolved_events (Settled None) resolved_world
                            eq_refl).
Defined.

Lemma cancels_take_effect (n : nat) (pc : Pc) (w : Process) :
  state w = PENDING -> timeout w = None ->
  run (repeat CancelCalled (S n)) (pc, w) = Some (pc, set_state CANCELLING w).
Proof.
  intros Hs Ht.
  destruct w as [s pl rr t tm cf cs]. cbn in Hs, Ht. subst s tm.
  cbn [repeat run]. cbn [step].
  change (cancel (mkProcess PENDING pl rr t None cf cs))
    with (@Return unit tt (mkProcess CANCELLING pl rr t None cf cs)).
  cbn [world_of]. apply repeated_cancel_noop. discriminate.
Qed.

(** X11.  A [cancel()] that comes before the submission is answered,
    even before [start] is called, does not stop the submission from
    being sent; when the answer reports a running task the remote
    cancel call for the returned task identifier is the next call, and
    once it has succeeded the first status call follows. *)
Theorem cancel_before_answer (p : ISqlQueryParams) (o n : Z) (j k : nat)
        (ti : AsyncTaskInfo) :
  (0 < j + k)%nat ->
  running ti = true ->
  exists w w2,
    run (repeat CancelCalled j ++ StartCalled p o n ::
         repeat CancelCalled k ++ [SubmitFulfilled ti]) initial =
      Some (AwaitCancelQuery PostSubmit, w) /\
    state w = CANCELLING /\
    calls w = [asyncSqlExecuteQuery p o n; asyncTaskCancel (Some (id ti))] /\
    run [CancelFulfilled; Resumed; Resumed] (AwaitCancelQuery PostSubmit, w) =
      Some (AwaitQueryStatus, w2) /\
    isCancelConfirmed w2 = true /\ state w2 = CANCELLING /\
    calls w2 = [asyncSqlExecuteQuery p o n; asyncTaskCancel (Some (id ti));
                asyncTaskStatus (Some (id ti))].
Proof.
  intros Hjk Hr.
  destruct ti as [i r er v stt]; cbn [running id] in *; subst r.
  assert (Hrun :
    run (repeat CancelCalled j ++ StartCalled p o n ::
         repeat CancelCalled k ++
         [SubmitFulfilled (mkAsyncTaskInfo i true er v stt)]) initial =
    Some (AwaitCancelQuery PostSubmit,
          mkProcess CANCELLING None None (Some i) None false
            [asyncSqlExecuteQuery p o n; asyncTaskCancel (Some i)])).
  { assert (Hstart : forall w0 rest,
              run (StartCalled p o n :: rest) (NotStarted, w0) =
              run rest (AwaitExecuteQuery,
                        emit (asyncSqlExecuteQuery p o n) w0))
      by reflexivity.
    rewrite run_app. destruct j as [|j].
    - destruct k as [|k]; [lia|].
      change (run (repeat CancelCalled 0) initial) with (Some initial).
      cbv iota beta. unfold initial.
      rewrite Hstart, run_app, cancels_take_effect by reflexivity.
      reflexivity.
    - unfold initial.
      rewrite cancels_take_effect by reflexivity.
      rewrite Hstart, run_app, repeated_cancel_noop by (cbn; discriminate).
      reflexivity. }
  eexists _, _. split; [exact Hrun|].
  split; [reflexivity|]. split; [reflexivity|].
  split; [reflexivity|]. repeat split.
Qed.

Lemma cancel_before_answer_witness :
  exists w,
    run [CancelCalled; StartCalled sample_params 0 200; CancelCalled;
         SubmitFulfilled sample_running] initial =
      Some (AwaitCancelQuery PostSubmit, w) /\
    calls w = [asyncSqlExecuteQuery sample_params 0 200;
               asyncTaskCancel (Some "task-1")].
Proof.
  destruct (cancel_before_answer sample_params 0 200 1 1 sample_running
              (le_S 1 1 (le_n 1)) eq_refl)
    as (w & w2 & Hrun & _ & Hc & _).
  exists w. split; [exact Hrun|exact Hc].
Defined.

(** X12.  A result reported by the remote wins over a cancellation in
    progress: in every execution, also after [cancel()] and after the
    remote has confirmed the cancel request, an answer to the
    submission or to a status check that carries a result and no error
    resolves the result to it, ends [start] and logs nothing. *)
Theorem result_beats_cancel (evs : list Event) (pc : Pc) (w : Process)
        (ev : Event) (ti : AsyncTaskInfo) (r : SqlExecuteInfo) :
  run evs initial = Some (pc, w) ->
  (pc = AwaitExecuteQuery /\ ev = SubmitFulfilled ti) \/
  (pc = AwaitQueryStatus /\ ev = StatusFulfilled ti) ->
  running ti = false -> error ti = None -> result ti = Some r ->
  exists w',
    step ev (pc, w) = Some (Settled None, w') /\
    state w' = RESOLVED /\ payload w' = Some r /\
    calls w' = calls w /\
    isCancelConfirmed w' = isCancelConfirmed w.
Proof.
  intros Hrun Hev Hr He Hv.
  apply reachable_wf in Hrun. destruct Hrun as (Hpc & _).
  cbn [fst snd] in Hpc.
  destruct ti as [i r0 er v stt]; cbn [running error result] in *; subst.
  destruct w as [s pl rr t tm cf cs].
  destruct Hev as [(-> & ->)|(-> & ->)]; cbn in Hpc;
    destruct s; try (destruct Hpc; discriminate); try discriminate Hpc;
    cbn; eexists; (split; [reflexivity|]); repeat split.
Qed.

Lemma result_beats_cancel_witness :
  run confirm_events initial = Some (AwaitQueryStatus, confirm_world) /\
  state confirm_world = CANCELLING /\
  isCancelConfirmed confirm_world = true /\
  exists w',
    step (StatusFulfilled sample_done) (AwaitQueryStatus, confirm_world) =
      Some (Settled None, w') /\
    state w' = RESOLVED /\ payload w' = Some sample_result.
Proof.
  split; [reflexivity|]. split; [reflexivity|]. split; [reflexivity|].
  destruct (result_beats_cancel confirm_events AwaitQueryStatus confirm_world
              (StatusFulfilled sample_done) sample_done sample_result
              eq_refl (or_intror (conj eq_refl eq_refl))
              eq_refl eq_refl eq_refl)
    as (w' & Hstep & Hs & Hp & _).
  exists w'. repeat split; assumption.
Defined.

Lemma step_remote_accounting (ev : Event) (pc pc' : Pc) (w w' : Process) :
  step ev (pc, w) = Some (pc', w') ->
  (remote_calls w' + awaiting_remote pc =
   remote_calls w + awaiting_remote pc' + Nat.b2n (is_answer ev))%nat.
Proof.
  destruct w as [s pl rr t tm cf cs].
  unfold remote_calls. cbn [calls].
  intros Hstep.
  destruct ev as [p o n| |ti|e| |e| |ti|e| ]; destruct pc as [ | |k|k r| | |r];
    try discriminate Hstep;
    try destruct_taskInfo ti;
    destruct s; destruct cf; try destruct tm as [[ | | ]|];
    try destruct k; try destruct r;
    unfold_ctrl;
    try discriminate Hstep;
    injection Hstep as <- <-;
    rewrite ?count_calls_app; unfold count_calls; cbn; lia.
Qed.

(** X13.  The controller never has two remote calls outstanding: in
    every execution each call made on the remote API has been answered,
    except at most one, and that one is the call [start] is waiting
    for. *)
Theorem one_call_in_flight (evs : list Event) (pc : Pc) (w : Process) :
  run evs initial = Some (pc, w) ->
  remote_calls w = (length (filter is_answer evs) + awaiting_remote pc)%nat /\
  (awaiting_remote pc <= 1)%nat.
Proof.
  assert (H : forall evs pc w pc' w',
            run evs (pc, w) = Some (pc', w') ->
            (remote_calls w' + awaiting_remote pc =
             remote_calls w + awaiting_remote pc' +
             length (filter is_answer evs))%nat).
  { clear. induction evs as [|ev evs IH]; intros pc w pc' w' Hrun.
    - cbn in Hrun. injection Hrun as <- <-. cbn. lia.
    - cbn [run] in Hrun.
      destruct (step ev (pc, w)) as [[pc1 w1]|] eqn:Hstep; [|discriminate].
      pose proof (step_remote_accounting _ _ _ _ _ Hstep) as Ha.
      pose proof (IH _ _ _ _ Hrun) as Hb.
      cbn [filter].
      destruct (is_answer ev); cbn [Nat.b2n length] in *; lia. }
  intros Hrun. specialize (H _ _ _ _ _ Hrun). cbn in H.
  split; [lia|]. destruct pc; cbn; lia.
Qed.

Lemma one_call_in_flight_witness :
  run retry_events initial = Some (AwaitCancelQuery InLoop, retry_world) /\
  remote_calls retry_world =
  (length (filter is_answer retry_events) + 1)%nat.
Proof.
  split; [reflexivity|].
  exact (proj1 (one_call_in_flight retry_events (AwaitCancelQuery InLoop)
                  retry_world eq_refl)).
Defined.

Lemma step_cancelled (ev : Event) (pc pc' : Pc) (w w' : Process) :
  pc_inv pc w ->
  step ev (pc, w) = Some (pc', w') ->
  state w' = CANCELLED ->
  payload w' = payload w /\ rejectionReason w' = rejectionReason w /\
  ((state w = CANCELLED /\ calls w' = calls w) \/
   (state w = CANCELLING /\
    ((exists e, ev = SubmitRejected e /\
        calls w' = calls w ++ [logException e (cancel_message None)]) \/
     (exists ti, finishing_answer ev = Some ti /\
        (error ti <> None \/ result ti = None) /\
        calls w' = calls w ++
                   [logException (fault_of ti) (cancel_message (status ti))])))).
Proof.
  destruct w as [s pl rr t tm cf cs].
  unfold pc_inv. cbn [state payload rejectionReason calls].
  intros Hpc Hstep.
  destruct ev as [p o n| |ti|e| |e| |ti|e| ]; destruct pc as [ | |k|k r| | |r];
    try discriminate Hstep;
    try (destruct ti as [i r0 er v stt]; destruct r0, er, v);
    destruct s; destruct cf; try destruct tm as [[ | | ]|];
    try destruct k; try destruct r;
    unfold_ctrl; cbv [id running error result status] in Hstep;
    try discriminate Hstep;
    try discriminate Hpc;
    try (destruct Hpc as (Hpc1 & Hpc2); discriminate);
    clear Hpc;
    injection Hstep as <- <-;
    cbn [state payload rejectionReason calls];
    intros Hs; try discriminate Hs;
    (split; [reflexivity|]); (split; [reflexivity|]);
    try (left; split; reflexivity);
    right; (split; [reflexivity|]);
    try (left; eexists; split; reflexivity);
    right; eexists; cbn;
    (split; [reflexivity|]);
    (split; [|reflexivity]);
    try (left; discriminate); right; reflexivity.
Qed.

(** X14.  A CANCELLED result stores neither a value nor an error, and
    the error behind it is in the log: in every execution that ends
    CANCELLED, either the submission threw and its error was logged
    with the plain cancellation message, or an answer reported the task
    finished with an error or without a result, and that error (the
    "no result" error in the second case) was logged with the
    cancellation message built from the status text of the answer. *)
Theorem cancelled_provenance (evs : list Event) (pc : Pc) (w : Process) :
  run evs initial = Some (pc, w) ->
  state w = CANCELLED ->
  payload w = None /\ rejectionReason w = None /\
  ((exists e, In (SubmitRejected e) evs /\
      In (logException e (cancel_message None)) (calls w)) \/
   (exists ev ti, In ev evs /\ finishing_answer ev = Some ti /\
      (error ti <> None \/ result ti = None) /\
      In (logException (fault_of ti) (cancel_message (status ti)))
         (calls w))).
Proof.
  revert evs pc w.
  assert (H : forall evs c, run evs initial = Some c ->
            state (snd c) = CANCELLED ->
            payload (snd c) = None /\ rejectionReason (snd c) = None /\
            ((exists e, In (SubmitRejected e) evs /\
                In (logException e (cancel_message None)) (calls (snd c))) \/
             (exists ev ti, In ev evs /\ finishing_answer ev = Some ti /\
                (error ti <> None \/ result ti = None) /\
                In (logException (fault_of ti) (cancel_message (status ti)))
                   (calls (snd c))))).
  { apply (reachable_ind (fun evs c =>
            state (snd c) = CANCELLED ->
            payload (snd c) = None /\ rejectionReason (snd c) = None /\
            ((exists e, In (SubmitRejected e) evs /\
                In (logException e (cancel_message None)) (calls (snd c))) \/
             (exists ev ti, In ev evs /\ finishing_answer ev = Some ti /\
                (error ti <> None \/ result ti = None) /\
                In (logException (fault_of ti) (cancel_message (status ti)))
                   (calls (snd c)))))).
    - cbn. discriminate.
    - intros evs [pc w] ev [pc' w'] Hrun IH Hstep Hs. cbn [snd] in *.
      pose proof (reachable_wf _ _ Hrun) as (Hpc & Hout & _).
      cbn [fst snd] in *.
      destruct (step_cancelled _ _ _ _ _ Hpc Hstep Hs)
        as (Hpl & Hrr & [(Hs0 & Hc)|(Hs0 & Hlog)]).
      + destruct (IH Hs0) as (H1 & H2 & H3).
        rewrite Hpl, Hrr, Hc. split; [exact H1|]. split; [exact H2|].
        destruct H3 as [(e & Hin & Hl)|(ev0 & ti & Hin & Hrest)].
        * left. exists e. split; [apply in_or_app; left; exact Hin|exact Hl].
        * right. exists ev0, ti.
          split; [apply in_or_app; left; exact Hin|exact Hrest].
      + unfold outcome_inv in Hout. rewrite Hs0 in Hout.
        destruct Hout as (H1 & H2).
        rewrite Hpl, Hrr. split; [exact H1|]. split; [exact H2|].
        destruct Hlog as [(e & -> & Hc)|(ti & Hf & Hne & Hc)]; rewrite Hc.
        * left. exists e.
          split; apply in_or_app; right; left; reflexivity.
        * right. exists ev, ti.
          split; [apply in_or_app; right; left; reflexivity|].
          split; [exact Hf|]. split; [exact Hne|].
          apply in_or_app; right; left; reflexivity. }
  intros evs pc w Hrun. exact (H evs (pc, w) Hrun).
Qed.

Lemma cancelled_provenance_witness :
  run cancelled_events initial = Some (Settled None, cancelled_world) /\
  payload cancelled_world = None /\ rejectionReason cancelled_world = None.
Proof.
  assert (Hrun : run cancelled_events initial =
                 Some (Settled None, cancelled_world))
    by (vm_compute; reflexivity).
  split; [exact Hrun|].
  destruct (cancelled_provenance cancelled_events (Settled None)
              cancelled_world Hrun eq_refl) as (H1 & H2 & _).
  split; [exact H1|exact H2].
Defined.

Lemma step_transition (ev : Event) (pc pc' : Pc) (w w' : Process) :
  pc_inv pc w ->
  step ev (pc, w) = Some (pc', w') ->
  (state w' = state w \/ controller_transition (state w) (state w') = true) /\
  (isCancelConfirmed w' = true ->
   isCancelConfirmed w = true \/ state w' = CANCELLING).
Proof.
  destruct w as [s pl rr t tm cf cs].
  unfold pc_inv. cbn [state isCancelConfirmed].
  intros Hpc Hstep.
  destruct ev as [p o n| |ti|e| |e| |ti|e| ]; destruct pc as [ | |k|k r| | |r];
    try discriminate Hstep;
    try destruct_taskInfo ti;
    destruct s; destruct cf; try destruct tm as [[ | | ]|];
    try destruct k; try destruct r;
    unfold_ctrl;
    try discriminate Hstep;
    try discriminate Hpc;
    try (destruct Hpc as (Hpc1 & Hpc2); discriminate);
    clear Hpc;
    injection Hstep as <- <-; cbn;
    (split; [first [left; reflexivity | right; reflexivity]
            |intros H; first [left; reflexivity | right; reflexivity
                              | discriminate H]]).
Qed.

(** X15.  In every execution the state of the result changes only
    along PENDING -> CANCELLING, RESOLVED or REJECTED, and
    CANCELLING -> PENDING, RESOLVED or CANCELLED: a result that is being
    cancelled is never rejected, a pending result is never cancelled
    without passing through CANCELLING, and a finished result never
    changes.  Once the remote has confirmed the cancel request the
    result is CANCELLING, CANCELLED or RESOLVED. *)
Theorem transition_discipline (evs : list Event) (pc : Pc) (w : Process) :
  run evs initial = Some (pc, w) ->
  (forall ev pc' w', step ev (pc, w) = Some (pc', w') ->
     state w' = state w \/
     controller_transition (state w) (state w') = true) /\
  (isCancelConfirmed w = true ->
   state w = CANCELLING \/ state w = CANCELLED \/ state w = RESOLVED).
Proof.
  intros Hrun. split.
  - intros ev pc' w' Hstep.
    exact (proj1 (step_transition _ _ _ _ _
                    (proj1 (reachable_wf _ _ Hrun)) Hstep)).
  - revert evs pc w Hrun.
    assert (H : forall evs c, run evs initial = Some c ->
              isCancelConfirmed (snd c) = true ->
              state (snd c) = CANCELLING \/ state (snd c) = CANCELLED \/
              state (snd c) = RESOLVED).
    { apply (reachable_ind (fun _ c =>
              isCancelConfirmed (snd c) = true ->
              state (snd c) = CANCELLING \/ state (snd c) = CANCELLED \/
              state (snd c) = RESOLVED)).
      - cbn. discriminate.
      - intros evs [pc w] ev [pc' w'] Hrun IH Hstep Hc. cbn [snd] in *.
        pose proof (reachable_wf _ _ Hrun) as Hwf.
        pose proof (step_wf _ _ _ Hwf Hstep) as (_ & _ & Hnp).
        destruct (step_transition _ _ _ _ _ (proj1 Hwf) Hstep) as (Ht & Hcf).
        cbn [fst snd] in *.
        specialize (Hnp Hc).
        destruct (Hcf Hc) as [Hc0|Hs]; [|auto].
        specialize (IH Hc0).
        destruct Ht as [Ht|Ht]; [rewrite Ht; exact IH|].
        destruct IH as [IH|[IH|IH]]; rewrite IH in Ht;
          destruct (state w'); try discriminate Ht; auto; congruence. }
    intros evs pc w Hrun. exact (H evs (pc, w) Hrun).
Qed.

Lemma transition_discipline_witness :
  run confirm_events initial = Some (AwaitQueryStatus, confirm_world) /\
  isCancelConfirmed confirm_world = true /\
  (state confirm_world = CANCELLING \/ state confirm_world = CANCELLED \/
   state confirm_world = RESOLVED).
Proof.
  split; [reflexivity|]. split; [reflexivity|].
  exact (proj2 (transition_discipline confirm_events AwaitQueryStatus
                  confirm_world eq_refl) eq_refl).
Defined.
